(** * UIS_app: the education-statistics dashboard

    A shallow embedding of [UIS_app.py]: the loader that joins the
    observation file with the indicator metadata, the page navigation kept in
    the Streamlit session state, and the two queries behind the charts.

    Conventions of the model.
    - Text cells are [string]s over 7-bit ASCII; a missing cell (pandas NaN)
      is [None].
    - The [value] column is binary64, as in pandas: Rocq's primitive [float].
    - A data frame is the list of its rows, in index order.  The columns the
      program names are record fields; the columns it never names are one
      abstract field ([O] for the observation file, [M] for the metadata
      file) compared by equality.
    - Streamlit is modelled by what the script sees of it: the session state,
      the widgets as the user left them before the run (which button was
      clicked, what is selected in the multiselect and in the selectbox), the
      elements the run emits and the exceptions that the calls of the
      library raise. *)

From Stdlib Require Import ZArith Ascii String Floats Sorted Permutation.
From stdpp Require Import base option list sorting gmap strings.

Local Open Scope Z_scope.
Local Open Scope string_scope.

(** ** Text: [str.upper] and [str.strip] on ASCII strings *)

Module Text.

Definition is_lower (c : ascii) : bool :=
  ((97 <=? N_of_ascii c) && (N_of_ascii c <=? 122))%N.

Definition upper_char (c : ascii) : ascii :=
  if is_lower c then ascii_of_N (N_of_ascii c - 32) else c.

(** Python's [str.upper] *)
Fixpoint upper (s : string) : string :=
  match s with
  | EmptyString => EmptyString
  | String c s' => String (upper_char c) (upper s')
  end.

(** The ASCII characters for which Python's [str.isspace] holds: TAB, LF, VT,
    FF, CR, FS, GS, RS, US and the space. *)
Definition is_space (c : ascii) : bool :=
  let n := N_of_ascii c in
  (((9 <=? n) && (n <=? 13)) || ((28 <=? n) && (n <=? 32)))%N.

Fixpoint lstrip (s : string) : string :=
  match s with
  | EmptyString => EmptyString
  | String c s' => if is_space c then lstrip s' else s
  end.

Fixpoint rstrip (s : string) : string :=
  match s with
  | EmptyString => EmptyString
  | String c s' =>
      match rstrip s' with
      | EmptyString => if is_space c then EmptyString else String c EmptyString
      | t => String c t
      end
  end.

(** Python's [str.strip] with no argument *)
Definition strip (s : string) : string := rstrip (lstrip s).

(** [Series.str.upper().str.strip()] on one cell; NaN stays NaN. *)
Definition normalise (c : option string) : option string :=
  (λ s, strip (upper s)) <$> c.

End Text.

(** ** The ids of the specification

    "Equal after case and whitespace normalization", said with the table of
    the letters and the list of the white space characters instead of
    [upper] and [strip]. *)







(** ** Cells

    [DataFrame.drop_duplicates] and the group keys compare cells the way
    pandas' hash tables do: two floats are the same cell when they are equal
    as numbers ([0.0] and [-0.0] are) or both NaN. *)

Definition value_eqb (x y : float) : bool :=
  (x =? y)%float || (is_nan x && is_nan y).

(** Two floats are the same float when they have the same IEEE 754 datum. *)
Global Instance spec_float_eq_dec : EqDecision spec_float.
Proof. solve_decision. Defined.

Global Instance float_eq_dec : EqDecision float.
Proof.
  intros x y. destruct (decide (Prim2SF x = Prim2SF y)) as [E|E].
  - left. now apply Prim2SF_inj.
  - right. now intros ->.
Defined.

Module Cell.

(** The number a float stands for: its IEEE 754 datum, the two zeros being
    one number. *)
Definition sf_key (x : spec_float) : spec_float :=
  match x with
  | S754_zero _ => S754_zero false
  | _ => x
  end.

Definition key (x : float) : spec_float := sf_key (Prim2SF x).

End Cell.

(** The conversion of a row count ([int64]) to binary64. *)
Definition count_to_float (n : nat) : float :=
  of_uint63 (Uint63.of_Z (Z.of_nat n)).

(** ** [drop_duplicates(keep='first')]: a row stays when no earlier row is the
    same row. *)

Fixpoint drop_duplicates_from {A} (same : A → A → bool)
    (seen l : list A) : list A :=
  match l with
  | [] => []
  | x :: l' =>
      if existsb (same x) seen then drop_duplicates_from same seen l'
      else x :: drop_duplicates_from same (x :: seen) l'
  end.

Definition drop_duplicates {A} (same : A → A → bool) (l : list A) : list A :=
  drop_duplicates_from same [] l.

(** ** Orders used by [sort_values] and by the sorted group keys *)

(** Python compares [str] by code point: [String.leb] on ASCII text.  A
    missing cell goes last ([na_position='last']). *)
Definition cell_le (a b : option string) : Prop :=
  match a, b with
  | Some x, Some y => String.leb x y = true
  | _, None => True
  | None, Some _ => False
  end.

Global Instance cell_le_dec : RelDecision cell_le.
Proof. intros [x|] [y|]; simpl; apply _. Defined.

(** A row of [df[['INDICATOR_ID', 'INDICATOR_LABEL_EN']]] *)
Definition indicator := (option string * option string)%type.

Definition indicator_le (p q : indicator) : Prop := cell_le p.1 q.1.

Global Instance indicator_le_dec : RelDecision indicator_le.
Proof. intros p q; unfold indicator_le; apply _. Defined.

(** A sort that keeps the rows with the same key in the order they had:
    each row, from the last to the first, is put in front of the first row
    that it is not after. *)
Fixpoint insert_sorted {A} (R : relation A) `{!RelDecision R}
    (x : A) (l : list A) : list A :=
  match l with
  | [] => [x]
  | y :: l' => if decide (R x y) then x :: l else y :: insert_sorted R x l'
  end.

Definition stable_sort {A} (R : relation A) `{!RelDecision R}
    (l : list A) : list A :=
  foldr (insert_sorted R) [] l.

(** [.sort_values('INDICATOR_ID')].  The default [kind] is quicksort, for
    which pandas promises no order among the rows with the same id; numpy
    sorts a short column by insertion, which keeps their order, and so does
    the model.  With one row of metadata per id the frame has no two rows
    with the same id. *)
Definition sort_values (l : list indicator) : list indicator :=
  stable_sort indicator_le l.

(** The order of the group keys [(year, country_id)]. *)
Definition key_le (a b : Z * string) : Prop :=
  a.1 < b.1 ∨ (a.1 = b.1 ∧ String.leb a.2 b.2 = true).

Global Instance key_le_dec : RelDecision key_le.
Proof. intros a b; unfold key_le; apply _. Defined.

(** ** [SeriesGroupBy.mean]

    pandas' [group_mean] skips NaN values, adds the others with Kahan's
    compensated summation (a compensation that became NaN, as after an
    infinity, is reset) and divides by their number; a group with no value
    yields NaN. *)

Definition kahan_add (acc : float * float) (val : float) : float * float :=
  let '(sumx, compensation) := acc in
  let y := (val - compensation)%float in
  let t := (sumx + y)%float in
  let c := (t - sumx - y)%float in
  (t, if is_nan c then 0%float else c).

Definition group_mean (vals : list float) : float :=
  let obs := List.filter (λ v, negb (is_nan v)) vals in
  match obs with
  | [] => nan
  | _ => (fst (fold_left kahan_add obs (0, 0)) / count_to_float (length obs))%float
  end.

(** ** Integers as binary64 numbers

    The values of the specification's examples are integers.  [float_of_Z]
    is the float of an integer; the other definitions describe how
    [binary_round] of the Standard Library treats a mantissa. *)

Module Exact.
Local Open Scope Z_scope.

(** [m * 2 ^ k] on positive numbers *)
Definition shl (m : positive) (k : nat) : positive := Nat.iter k xO m.

(** The record of a mantissa without rounding bits *)
Definition exact (m : positive) : shr_record :=
  {| shr_m := Z.pos m; shr_r := false; shr_s := false |}.

(** The record of [m * 2 ^ k]: the shifted mantissa, or what [shr] leaves
    of it *)
Definition scaled (m : positive) (k : Z) : shr_record :=
  if 0 <=? k then exact (shl m (Z.to_nat k))
  else Nat.iter (Z.to_nat (- k)) shr_1 (exact m).

(** What [binary_round_aux] does after its first shift *)
Definition finish (s : bool) (mrs : shr_record) (e : Z) : spec_float :=
  let '(mrs', e') :=
    shr_fexp prec emax
      (round_nearest_even (shr_m mrs) (loc_of_shr_record mrs)) e loc_Exact in
  match shr_m mrs' with
  | Z0 => S754_zero s
  | Zpos m => if e' <=? emax - prec then S754_finite s m e'
              else S754_infinity s
  | Zneg _ => S754_nan
  end.

(** The float of an integer, as a datum *)
Definition SFZ (z : Z) : spec_float := binary_normalize prec emax z 0 false.

End Exact.

(** The binary64 float of an integer *)
Definition float_of_Z (z : Z) : float :=
  match z with
  | Z0 => 0%float
  | Zpos _ => of_uint63 (Uint63.of_Z z)
  | Zneg p => (- of_uint63 (Uint63.of_Z (Zpos p)))%float
  end.

(** The sum of integers, and of their absolute values *)
Fixpoint sum (zs : list Z) : Z :=
  match zs with
  | [] => 0
  | z :: zs => z + sum zs
  end.

Fixpoint sum_abs (zs : list Z) : Z :=
  match zs with
  | [] => 0
  | z :: zs => Z.abs z + sum_abs zs
  end.

(** The mean without compensation: the values added from the left. *)
Definition naive_mean (vals : list float) : float :=
  (fold_left PrimFloat.add vals 0 / count_to_float (length vals))%float.

(** ** Data frames *)

Section frames.
Context {O M : Type} `{!EqDecision O, !EqDecision M}.

(** [UNESCO_edu_data.csv] as read *)
Record raw_row := RawRow {
  raw_country_id : option string;
  raw_indicator_id : option string;
  raw_indicator_desc : option string;
  raw_year : Z;
  raw_value : float;
  raw_rest : O }.

(** ... after [drop('indicator_desc')] and the renaming of [indicator_id] *)
Record data_row := DataRow {
  d_country_id : option string;
  d_INDICATOR_ID : option string;
  d_year : Z;
  d_value : float;
  d_rest : O }.

(** [SDG_METADATA.csv] *)
Record meta_row := MetaRow {
  m_INDICATOR_ID : option string;
  m_INDICATOR_LABEL_EN : option string;
  m_rest : M }.

(** [label_data]: the columns of [data] followed by those of [metadata]
    other than the key *)
Record row := Row {
  country_id : option string;
  INDICATOR_ID : option string;
  year : Z;
  value : float;
  rest : O;
  INDICATOR_LABEL_EN : option string;
  meta_rest : M }.

Global Instance row_eq_dec : EqDecision row.
Proof. solve_decision. Defined.

(** The value of the metadata columns never named by the program in a row
    without a match: every cell missing. *)
Variable na : M.

(** *** [load_data] *)

Definition drop_indicator_desc (r : raw_row) : data_row :=
  {| d_country_id := raw_country_id r;
     d_INDICATOR_ID := raw_indicator_id r;
     d_year := raw_year r;
     d_value := raw_value r;
     d_rest := raw_rest r |}.

(** [data['INDICATOR_ID'] = data['INDICATOR_ID'].str.upper().str.strip()] *)
Definition normalise_INDICATOR_ID (d : data_row) : data_row :=
  {| d_country_id := d_country_id d;
     d_INDICATOR_ID := Text.normalise (d_INDICATOR_ID d);
     d_year := d_year d;
     d_value := d_value d;
     d_rest := d_rest d |}.

Definition joined (d : data_row) (m : meta_row) : row :=
  {| country_id := d_country_id d;
     INDICATOR_ID := d_INDICATOR_ID d;
     year := d_year d;
     value := d_value d;
     rest := d_rest d;
     INDICATOR_LABEL_EN := m_INDICATOR_LABEL_EN m;
     meta_rest := m_rest m |}.

Definition unmatched (d : data_row) : row :=
  {| country_id := d_country_id d;
     INDICATOR_ID := d_INDICATOR_ID d;
     year := d_year d;
     value := d_value d;
     rest := d_rest d;
     INDICATOR_LABEL_EN := None;
     meta_rest := na |}.

(** The metadata rows with the key of [d].  pandas matches a missing key
    with a missing key. *)
Definition matches (metadata : list meta_row) (d : data_row) : list meta_row :=
  filter (λ m, m_INDICATOR_ID m = d_INDICATOR_ID d) metadata.

(** The rows that one row of [data] contributes to the join: one per
    matching row of [metadata], or one with the metadata columns missing
    when there is none. *)
Definition merged_rows (metadata : list meta_row) (d : data_row) : list row :=
  match matches metadata d with
  | [] => [unmatched d]
  | ms => joined d <$> ms
  end.

(** [pd.merge(data, metadata, on="INDICATOR_ID", how="left")]: the rows of
    [data] in order. *)
Definition merge_left (data : list data_row) (metadata : list meta_row)
    : list row :=
  data ≫= merged_rows metadata.

(** [load_data], on the contents of the two files *)
Definition load_data (data : list raw_row) (metadata : list meta_row)
    : list row :=
  let data := drop_indicator_desc <$> data in
  let data := normalise_INDICATOR_ID <$> data in
  let label_data := merge_left data metadata in
  label_data.

(** What [load_data] makes of one row of the observation file before the
    join *)
Definition prepared (o : raw_row) : data_row :=
  normalise_INDICATOR_ID (drop_indicator_desc o).

(** *** Row identity for [DataFrame.drop_duplicates] *)

Definition row_eqb (r1 r2 : row) : bool :=
  bool_decide (country_id r1 = country_id r2)
  && bool_decide (INDICATOR_ID r1 = INDICATOR_ID r2)
  && bool_decide (year r1 = year r2)
  && value_eqb (value r1) (value r2)
  && bool_decide (rest r1 = rest r2)
  && bool_decide (INDICATOR_LABEL_EN r1 = INDICATOR_LABEL_EN r2)
  && bool_decide (meta_rest r1 = meta_rest r2).

(** The cells of a row up to that identity *)
Definition row_key (r : row) :=
  (country_id r, INDICATOR_ID r, year r, Cell.key (value r), rest r,
   INDICATOR_LABEL_EN r, meta_rest r).



(** *** The country query: lines 91 to 95 *)

(** [label_data[label_data['country_id'] == country_code]] *)
Definition filterByCountry (label_data : list row) (country_code : string)
    : list row :=
  filter (λ r, country_id r = Some country_code) label_data.

(** [df[['INDICATOR_ID', 'INDICATOR_LABEL_EN']]] *)
Definition id_and_label (r : row) : indicator :=
  (INDICATOR_ID r, INDICATOR_LABEL_EN r).

Definition unique_indicators (label_data : list row) (country_code : string)
    : list indicator :=
  let df := filterByCountry label_data country_code in
  sort_values
    (drop_duplicates (λ p q, bool_decide (p = q)) (id_and_label <$> df)).

(** [unique_indicators['INDICATOR_ID'].tolist()] *)
Definition indicator_options (label_data : list row) (country_code : string)
    : list (option string) :=
  fst <$> unique_indicators label_data country_code.

(** [df[df['INDICATOR_ID'].isin(selected_indicators)]] *)
Definition isin_INDICATOR_ID (selected : list (option string))
    (df : list row) : list row :=
  filter (λ r, INDICATOR_ID r ∈ selected) df.

(** *** The indicator query: line 209 *)

(** [label_data[label_data["INDICATOR_ID"] == selected_indicator]
      .drop_duplicates()] *)
Definition filterByIndicator (label_data : list row)
    (selected_indicator : string) : list row :=
  drop_duplicates row_eqb
    (filter (λ r, INDICATOR_ID r = Some selected_indicator) label_data).

(** *** The bar chart aggregation: line 273 *)

Definition bar_row := (Z * string * float)%type.

(** The group key of a row; a row whose key has a missing cell belongs to
    no group ([dropna=True]). *)
Definition group_key (r : row) : option (Z * string) :=
  c ← country_id r; Some (year r, c).

(** The group keys, each once, in ascending order ([sort=True]). *)
Definition group_keys (df : list row) : list (Z * string) :=
  merge_sort key_le
    (drop_duplicates (λ k1 k2, bool_decide (k1 = k2)) (omap group_key df)).

Definition group_values (df : list row) (k : Z * string) : list float :=
  value <$> filter (λ r, group_key r = Some k) df.

(** [df.groupby(["year", "country_id"])["value"].mean().reset_index()] *)
Definition groupby_year_country_mean (df : list row) : list bar_row :=
  (λ k, (k.1, k.2, group_mean (group_values df k))) <$> group_keys df.

(** *** Frames without missing cells *)

(** Every row has an indicator id. *)
Definition ids_present (df : list row) : Prop :=
  Forall (λ r, is_Some (INDICATOR_ID r)) df.

(** Some row has a country. *)
Definition has_country (df : list row) : Prop :=
  Exists (λ r, is_Some (country_id r)) df.

Global Instance ids_present_dec df : Decision (ids_present df).
Proof. unfold ids_present. apply _. Defined.

Global Instance has_country_dec df : Decision (has_country df).
Proof. unfold has_country. apply _. Defined.

End frames.

Arguments raw_row : clear implicits.
Arguments data_row : clear implicits.
Arguments meta_row : clear implicits.
Arguments row : clear implicits.

(** ** The labels of the options: lines 98 to 100 *)

(** How an f-string shows a cell: its text, or [nan] for a missing cell. *)
Definition str_cell (c : option string) : string := default "nan" c.

(** [format_indicator], the closure that labels the options of the
    multiselect (lines 98 to 100).  The comparison [== ind] holds of no row
    when [ind] is NaN; [.iloc[0]] on no row raises [IndexError], which is
    [None] here. *)
Definition format_indicator (unique_indicators : list indicator)
    (ind : option string) : option string :=
  match filter (λ p : indicator, is_Some ind ∧ p.1 = ind) unique_indicators with
  | [] => None
  | p :: _ => Some (str_cell ind +:+ " - " +:+ str_cell p.2)
  end.

(** ** The script

    One run of the script is a computation on a [world]: the session state,
    the objects on the heap (the frames that [label_data], [df], ... refer
    to), the value stored by [st.cache_data] and the elements emitted so far.
    A computation returns a value and a new world, or raises. *)

Inductive exn :=
  | SyntaxError (lineno : nat)
  | FileNotFoundError (path : string)
  | KeyError (key : string)
  | AttributeError (name : string)
  | TypeError
  | IndexError
  | ValueError
  | StreamlitDuplicateElementId.

Definition loc := positive.

Inductive chart := LineChart | AreaChart | BarChart.

Global Instance chart_eq_dec : EqDecision chart.
Proof. solve_decision. Defined.

(** What the user did to the widgets before this run: the button clicked, if
    any, and the current values of the multiselect and of the selectbox. *)
Record widgets := Widgets {
  clicked : option string;
  multiselect_value : list (option string);
  selectbox_value : string }.

Section script.
Context {O M : Type} `{!EqDecision O, !EqDecision M}.
Variable na : M.

(** The contents of the two files; [None] for a file that is not there. *)
Record files := Files {
  UNESCO_edu_data_csv : option (list (raw_row O));
  SDG_METADATA_csv : option (list (meta_row M)) }.

(** A frame, by its set of columns *)
Inductive frame :=
  | DataFrame (rows : list (row O M))
  | IndicatorFrame (rows : list indicator)
  | MeanFrame (rows : list bar_row).

Global Instance frame_eq_dec : EqDecision frame.
Proof. solve_decision. Defined.

(** A plotly figure: the kind of chart, the data handed to it and the
    column that colours the traces. *)
Record figure := Figure {
  fig_chart : chart;
  fig_data : frame;
  fig_color : string }.

Global Instance figure_eq_dec : EqDecision figure.
Proof. solve_decision. Defined.

(** The cells of the colour column.  plotly express draws one trace per
    value of that column, and none for a missing value. *)
Definition colours (f : frame) (color : string) : list (option string) :=
  match f with
  | DataFrame rows =>
      if bool_decide (color = "INDICATOR_ID") then INDICATOR_ID <$> rows
      else country_id <$> rows
  | IndicatorFrame rows => fst <$> rows
  | MeanFrame rows => (λ b : bar_row, Some b.1.2) <$> rows
  end.

Definition has_traces (fig : figure) : bool :=
  bool_decide (Exists is_Some (colours (fig_data fig) (fig_color fig))).

(** Streamlit gives an element without [key] an identity made from its
    content, for a chart the figure, and refuses a second element with the
    identity of an earlier one of the same run.  Figures with traces are the
    same when their kind and their data are; without traces what is left of
    a figure is its layout, which is one for [px.line] and [px.area] and
    another for [px.bar] ([barmode], the title of the value axis). *)
Definition same_figure (f g : figure) : bool :=
  if has_traces f || has_traces g then bool_decide (f = g)
  else bool_decide ((fig_chart f = BarChart ↔ fig_chart g = BarChart)
                    ∧ fig_color f = fig_color g).

Inductive element :=
  | PageConfig (page_title : string)
  | Markdown (body : string)
  | Title (body : string)
  | Written (body : string)
  | Warning (body : string)
  | Columns (n : nat)
  | Tabs (labels : list string)
  | Button (label : string)
  | SidebarButton (label : string)
  | Multiselect (label : string) (options : list (option string))
  | Selectbox (label : string) (options : list string)
  | PlotlyChart (fig : figure).

Record world := World {
  session_state : gmap string string;
  heap : gmap loc frame;
  cache_data : option (list (row O M));
  rendered : list element }.

Definition App (A : Type) : Type := world → exn + A * world.

Global Instance App_ret : MRet App := λ A a w, inr (a, w).

Global Instance App_bind : MBind App := λ A B f m w,
  match m w with
  | inl e => inl e
  | inr (a, w') => f a w'
  end.

Definition raise {A} (e : exn) : App A := λ _, inl e.

(** *** Session state *)

(** ["page" in st.session_state] *)
Definition has_page : App bool := λ w,
  inr (bool_decide (is_Some (session_state w !! "page")), w).

(** [st.session_state.page] *)
Definition get_page : App string := λ w,
  match session_state w !! "page" with
  | Some p => inr (p, w)
  | None => inl (AttributeError "page")
  end.

(** [st.session_state.page = p] *)
Definition set_page (p : string) : App () := λ w,
  inr ((), {| session_state := <["page" := p]> (session_state w);
              heap := heap w;
              cache_data := cache_data w;
              rendered := rendered w |}).

(** *** Elements and widgets *)

Definition emit (e : element) : App () := λ w,
  inr ((), {| session_state := session_state w;
              heap := heap w;
              cache_data := cache_data w;
              rendered := rendered w ++ [e] |}).

(** [st.button(label)]: true in the run that the click on it started. *)
Definition st_button (ui : widgets) (label : string) : App bool :=
  emit (Button label);; mret (bool_decide (clicked ui = Some label)).

Definition st_sidebar_button (ui : widgets) (label : string) : App bool :=
  emit (SidebarButton label);; mret (bool_decide (clicked ui = Some label)).

(** [st.multiselect(label, options, format_func)]: the widget labels every
    option with [format_func] before it shows them, so what [format_func]
    raises on an option is raised by the call, whatever is selected. *)
Definition st_multiselect (ui : widgets) (label : string)
    (options : list (option string))
    (format_func : option string → App string)
    : App (list (option string)) :=
  mapM format_func options;;
  emit (Multiselect label options);;
  mret (multiselect_value ui).

(** What a selectbox holds: the option the user chose, and the first option
    ([index=0]) as long as the state of the widget is none of the options;
    [None] when there is no option. *)
Definition selectbox_choice (options : list string) (state : string)
    : option string :=
  if bool_decide (state ∈ options) then Some state else head options.

Definition st_selectbox (ui : widgets) (label : string)
    (options : list string) : App (option string) :=
  emit (Selectbox label options);;
  mret (selectbox_choice options (selectbox_value ui)).

(** [st.plotly_chart(fig)], [shown] being the charts that the run has made
    so far. *)
Definition st_plotly_chart (shown : list figure) (fig : figure) : App () :=
  if existsb (same_figure fig) shown then raise StreamlitDuplicateElementId
  else emit (PlotlyChart fig).

(** *** Frames on the heap

    None of the pandas calls of the page functions has [inplace=True]: each
    reads its frame and returns a new one. *)

Definition new_frame (f : frame) : App loc := λ w,
  let l := fresh (dom (heap w)) in
  inr (l, {| session_state := session_state w;
             heap := <[l := f]> (heap w);
             cache_data := cache_data w;
             rendered := rendered w |}).

Definition read_frame (l : loc) : App frame := λ w,
  match heap w !! l with
  | Some f => inr (f, w)
  | None => inl TypeError
  end.

Definition DataFrame_rows (l : loc) : App (list (row O M)) :=
  f ← read_frame l;
  match f with DataFrame rows => mret rows | _ => raise TypeError end.

Definition IndicatorFrame_rows (l : loc) : App (list indicator) :=
  f ← read_frame l;
  match f with IndicatorFrame rows => mret rows | _ => raise TypeError end.

(** [df[mask]] *)
Definition df_where (P : row O M → Prop) `{!∀ r, Decision (P r)}
    (df : loc) : App loc :=
  rows ← DataFrame_rows df; new_frame (DataFrame (filter P rows)).

(** [df.drop_duplicates()] *)
Definition df_drop_duplicates (df : loc) : App loc :=
  rows ← DataFrame_rows df;
  new_frame (DataFrame (drop_duplicates row_eqb rows)).

(** [df[['INDICATOR_ID', 'INDICATOR_LABEL_EN']]] *)
Definition df_id_and_label (df : loc) : App loc :=
  rows ← DataFrame_rows df; new_frame (IndicatorFrame (id_and_label <$> rows)).

Definition ind_drop_duplicates (df : loc) : App loc :=
  rows ← IndicatorFrame_rows df;
  new_frame
    (IndicatorFrame (drop_duplicates (λ p q, bool_decide (p = q)) rows)).

Definition ind_sort_values (df : loc) : App loc :=
  rows ← IndicatorFrame_rows df; new_frame (IndicatorFrame (sort_values rows)).

(** [df['INDICATOR_ID'].tolist()] *)
Definition ind_tolist (df : loc) : App (list (option string)) :=
  rows ← IndicatorFrame_rows df; mret (fst <$> rows).

(** [df.groupby(["year", "country_id"])["value"].mean().reset_index()] *)
Definition df_groupby_mean (df : loc) : App loc :=
  rows ← DataFrame_rows df;
  new_frame (MeanFrame (groupby_year_country_mean rows)).

(** [px.line], [px.area], [px.bar] *)
Definition px (c : chart) (df : loc) (color : string) : App figure :=
  f ← read_frame df; mret (Figure c f color).

(** *** Loading: lines 47 to 62 *)

Definition read_csv {A} (path : string) (content : option (list A))
    : App (list A) :=
  match content with
  | Some rows => mret rows
  | None => raise (FileNotFoundError path)
  end.

(** A column in which [read_csv] found text; a column with rows and no text
    in any of them is read as a column of numbers. *)
Definition is_text (column : list (option string)) : Prop :=
  column = [] ∨ Exists is_Some column.

Global Instance is_text_dec column : Decision (is_text column).
Proof. unfold is_text. apply _. Defined.

(** [column.str]: the accessor of the text columns *)
Definition str_accessor (column : list (option string)) : App () :=
  if bool_decide (is_text column) then mret ()
  else raise (AttributeError "str").

(** The check [pd.merge] makes of the two key columns: when both frames have
    rows, it refuses to join a column of text with a column of numbers. *)
Definition merge_keys (left right : list (option string)) : App () :=
  if bool_decide (left = [] ∨ right = [] ∨ is_text right) then mret ()
  else raise ValueError.

(** Files that [load_data] takes: the column of the observation ids holds
    text, and so does the column of the metadata ids unless one of the two
    files has no row. *)
Definition loadable (data : list (raw_row O)) (metadata : list (meta_row M))
    : Prop :=
  is_text (raw_indicator_id <$> data)
  ∧ (raw_indicator_id <$> data = [] ∨ m_INDICATOR_ID <$> metadata = []
     ∨ is_text (m_INDICATOR_ID <$> metadata)).

(** The body of [load_data].  [data] and [metadata] are local to it, so the
    in-place updates of [data] are its successive values in [load_data].
    The two files are read with the columns that the program names. *)
Definition load_data_body (fs : files) : App (list (row O M)) :=
  data ← read_csv "UNESCO_edu_data.csv" (UNESCO_edu_data_csv fs);
  metadata ← read_csv "SDG_METADATA.csv" (SDG_METADATA_csv fs);
  str_accessor (raw_indicator_id <$> data);;
  merge_keys (raw_indicator_id <$> data) (m_INDICATOR_ID <$> metadata);;
  mret (load_data na data metadata).

(** [@st.cache_data]: the first call runs the body and stores its result;
    every call returns a copy of the stored value. *)
Definition load_data_cached (fs : files) : App loc := λ w,
  match cache_data w with
  | Some t => new_frame (DataFrame t) w
  | None =>
      (t ← load_data_body fs;
       (λ w', inr ((), {| session_state := session_state w';
                          heap := heap w';
                          cache_data := Some t;
                          rendered := rendered w' |}));;
       new_frame (DataFrame t)) w
  end.

(** *** Navigation: lines 67 to 80 *)

Definition PARENTS : gmap string string :=
  list_to_map
    [("Nepal", "individual");
     ("Estonia", "individual");
     ("Sierra Leone", "individual");
     ("USA", "individual");
     ("individual", "home");
     ("cross", "home")].

(** [d[k]] on a dictionary *)
Definition getitem (d : gmap string string) (k : string) : App string :=
  match d !! k with
  | Some v => mret v
  | None => raise (KeyError k)
  end.

Definition show_back_button (ui : widgets) : App () :=
  page ← get_page;
  if bool_decide (page ≠ "home") then
    go_back ← st_sidebar_button ui "Go Back";
    if go_back : bool then
      page ← get_page;
      parent ← getitem PARENTS page;
      set_page parent
    else mret ()
  else mret ().

(** The two transitions of the navigation, as the specification names
    them: [goto page] is the assignment made by the handler of a button,
    [back] is [show_back_button] in the run that a click on "Go Back"
    starts. *)
Definition goto (page : string) : App () := set_page page.

Definition back : App () :=
  show_back_button
    {| clicked := Some "Go Back";
       multiselect_value := [];
       selectbox_value := "" |}.

(** The pages [main] dispatches on *)
Definition pages : list string :=
  ["home"; "individual"; "cross"; "Nepal"; "Estonia"; "Sierra Leone"; "USA"].

(** *** The line chart of a country: lines 85 to 141 *)

(** Lines 91 to 95, the query of the rows of a country: the frames [df]
    and [unique_indicators] and the list [indicator_options]. *)
Definition country_query (label_data : loc) (country_code : string)
    : App (loc * loc * list (option string)) :=
  df ← df_where (λ r, country_id r = Some country_code) label_data;
  unique_indicators ←
    (cols ← df_id_and_label df;
     distinct ← ind_drop_duplicates cols;
     ind_sort_values distinct);
  indicator_options ← ind_tolist unique_indicators;
  mret (df, unique_indicators, indicator_options).

(** The closure [format_indicator] (lines 98 to 100): it reads the frame
    that [unique_indicators] refers to. *)
Definition format_indicator_of (unique_indicators : loc)
    (ind : option string) : App string :=
  rows ← IndicatorFrame_rows unique_indicators;
  match format_indicator rows ind with
  | Some text => mret text
  | None => raise IndexError
  end.

Definition create_line_chart_with_selection (ui : widgets)
    (label_data : loc) (country_code : string) : App (option figure) :=
  '(df, unique_indicators, indicator_options) ←
    country_query label_data country_code;
  selected_indicators ←
    st_multiselect ui "Select Indicator(s) to Display" indicator_options
      (format_indicator_of unique_indicators);
  match selected_indicators with
  | [] =>
      emit (Warning "Please select at least one indicator.");;
      mret None
  | _ =>
      df_filtered ← df_where (λ r, INDICATOR_ID r ∈ selected_indicators) df;
      fig ← px LineChart df_filtered "INDICATOR_ID";
      mret (Some fig)
  end.

(** *** Pages: lines 146 to 313 *)

Definition show_home (ui : widgets) : App () :=
  emit (Title "Home");;
  emit (Columns 2);;
  b ← st_button ui "Individual Analysis";
  (if b : bool then set_page "individual" else mret ());;
  b ← st_button ui "Cross-country Analysis";
  if b : bool then set_page "cross" else mret ().

Definition show_individual (ui : widgets) : App () :=
  emit (Title "Individual Analysis");;
  emit (Columns 2);;
  b ← st_button ui "Nepal";
  (if b : bool then set_page "Nepal" else mret ());;
  b ← st_button ui "USA";
  (if b : bool then set_page "USA" else mret ());;
  b ← st_button ui "Estonia";
  (if b : bool then set_page "Estonia" else mret ());;
  b ← st_button ui "Sierra Leone";
  if b : bool then set_page "Sierra Leone" else mret ().

Definition indicators : list (string * string) :=
  [("EA.3T8.AG25T99", "Educational attainment rate, completed upper secondary education or higher, population 25+ years, both sexes (%)");
   ("XGOVEXP.IMF", "Expenditure on education as a percentage of total government expenditure (%)");
   ("XGDP.FSGOV", "Government expenditure on education as a percentage of GDP (%)");
   ("XUNIT.PPPCONST.2T3.FSGOV.FFNTR", "Initial government funding per secondary student, constant PPP$");
   ("NER.02.CP", "Net enrolment rate, pre-primary, both sexes (%)");
   ("ROFST.1T3.CP", "Out-of-school rate for children, adolescents and youth of primary, lower secondary and upper secondary school age, both sexes (%)");
   ("ROFST.1T3.F.CP", "Out-of-school rate for children, adolescents and youth of primary, lower secondary and upper secondary school age, female (%)");
   ("ROFST.1T3.M.CP", "Out-of-school rate for children, adolescents and youth of primary, lower secondary and upper secondary school age, male (%)");
   ("ROFST.H.3", "Out-of-school rate for youth of upper secondary school age, both sexes (household survey data) (%)");
   ("ROFST.3.F.CP", "Out-of-school rate for youth of upper secondary school age, female (%)");
   ("ROFST.3.M.CP", "Out-of-school rate for youth of upper secondary school age, male (%)");
   ("SCHBSP.2.WELEC", "Proportion of lower secondary schools with access to electricity (%)");
   ("SCHBSP.1.WCOMPUT", "Proportion of primary schools with access to computers for pedagogical purposes (%)");
   ("SCHBSP.1.WELEC", "Proportion of primary schools with access to electricity (%)");
   ("SCHBSP.2T3.WCOMPUT", "Proportion of secondary schools with access to computers for pedagogical purposes (%)");
   ("SCHBSP.3.WELEC", "Proportion of upper secondary schools with access to electricity (%)")].

(** Line 209, the query of the rows of an indicator *)
Definition indicator_query (label_data : loc) (selected_indicator : string)
    : App loc :=
  matching ← df_where (λ r, INDICATOR_ID r = Some selected_indicator)
                      label_data;
  df_drop_duplicates matching.

(** The indicator that the selectbox returns *)
Definition selected_indicator (ui : widgets) : string :=
  default "" (selectbox_choice indicators.*1 (selectbox_value ui)).

(** The page once the selectbox has returned an option *)
Definition show_cross_of (label_data : loc) (selected_indicator : string)
    : App () :=
  description ← getitem (list_to_map indicators) selected_indicator;
  emit (Written ("Displaying cross-country analysis for: **"
               +:+ description +:+ "**"));;
  emit (Markdown "<br><br>");;
  df ← indicator_query label_data selected_indicator;
  emit (Tabs ["Line Chart"; "Area Chart"; "Bar Chart"]);;
  fig_line ← px LineChart df "country_id";
  st_plotly_chart [] fig_line;;
  fig_area ← px AreaChart df "country_id";
  st_plotly_chart [fig_line] fig_area;;
  df_bar ← df_groupby_mean df;
  fig_bar ← px BarChart df_bar "country_id";
  st_plotly_chart [fig_line; fig_area] fig_bar.

(** A selectbox without options returns [None], which is no key of
    [indicators]. *)
Definition show_cross (ui : widgets) (label_data : loc) : App () :=
  emit (Title "Cross-country Analysis");;
  selected_indicator ← st_selectbox ui "Select an Indicator" indicators.*1;
  match selected_indicator with
  | Some selected_indicator => show_cross_of label_data selected_indicator
  | None => raise (KeyError "None")
  end.

Definition show_country (ui : widgets) (label_data : loc)
    (title country_code : string) : App () :=
  emit (Title title);;
  fig ← create_line_chart_with_selection ui label_data country_code;
  match fig with
  | Some fig => st_plotly_chart [] fig
  | None => mret ()
  end.

Definition show_nepal ui label_data :=
  show_country ui label_data "Nepal Analysis" "NPL".
Definition show_estonia ui label_data :=
  show_country ui label_data "Estonia Analysis" "EST".
Definition show_sierra_leone ui label_data :=
  show_country ui label_data "Sierra Leone Analysis" "SLE".
Definition show_usa ui label_data :=
  show_country ui label_data "USA Analysis" "USA".

(** *** [main]: lines 318 to 336 *)

Definition page_is (p : string) : App bool :=
  page ← get_page; mret (bool_decide (page = p)).

Definition main (ui : widgets) (label_data : loc) : App () :=
  known ← has_page;
  (if known : bool then mret () else set_page "home");;
  show_back_button ui;;
  b ← page_is "home";
  if b : bool then show_home ui else
  b ← page_is "individual";
  if b : bool then show_individual ui else
  b ← page_is "cross";
  if b : bool then show_cross ui label_data else
  b ← page_is "Nepal";
  if b : bool then show_nepal ui label_data else
  b ← page_is "Estonia";
  if b : bool then show_estonia ui label_data else
  b ← page_is "Sierra Leone";
  if b : bool then show_sierra_leone ui label_data else
  b ← page_is "USA";
  if b : bool then show_usa ui label_data else
  mret ().

(** *** The module, once it is compiled: one run of the script *)

Definition script (fs : files) (ui : widgets) : App () :=
  emit (PageConfig "Analysis App");;
  emit (Markdown "<style>...</style>");;
  label_data ← load_data_cached fs;
  main ui label_data.

(** *** Runs

    [returns m w Q]: run in [w], [m] raises nothing and returns a value and
    a world that satisfy [Q]. *)
Definition returns {A} (m : App A) (w : world) (Q : A → world → Prop) : Prop :=
  match m w with
  | inr (a, w') => Q a w'
  | inl _ => False
  end.

(** [outcome m w E Q]: run in [w], [m] returns a value and a world that
    satisfy [Q], or raises an exception that satisfies [E]. *)
Definition outcome {A} (m : App A) (w : world) (E : exn → Prop)
    (Q : A → world → Prop) : Prop :=
  match m w with
  | inr (a, w') => Q a w'
  | inl e => E e
  end.

(** [extends w es w']: [w'] is [w] after the elements [es] were emitted and
    frames were created: the session state and the cache are those of [w],
    and every frame of [w] is in [w'] as it was. *)
Definition extends (w : world) (es : list element) (w' : world) : Prop :=
  session_state w' = session_state w
  ∧ cache_data w' = cache_data w
  ∧ rendered w' = (rendered w ++ es)%list
  ∧ heap w ⊆ heap w'.

Definition page_of (w : world) : option string := session_state w !! "page".

(** [keeps_data w w']: the cache and every frame of [w] are in [w'] as they
    were. *)
Definition keeps_data (w w' : world) : Prop :=
  cache_data w' = cache_data w ∧ heap w ⊆ heap w'.

End script.

(** ** The source text

    Python compiles a module before it runs any of it.  Every production of
    the grammar puts an operator, a delimiter or a keyword between two
    identifiers, so a logical line with two identifiers side by side, neither
    of them a keyword, has no parse.  [compile] looks for the first such
    line: a condition the compiler needs, and enough to tell when it
    rejects. *)

Module Syntax.

Inductive token :=
  | NAME (s : string)
  | NUMBER (s : string)
  | STRING (s : string)
  | OP (s : string).

Definition keywords : list string :=
  ["False"; "None"; "True"; "and"; "as"; "assert"; "async"; "await";
   "break"; "class"; "continue"; "def"; "del"; "elif"; "else"; "except";
   "finally"; "for"; "from"; "global"; "if"; "import"; "in"; "is";
   "lambda"; "nonlocal"; "not"; "or"; "pass"; "raise"; "return"; "try";
   "while"; "with"; "yield"].

Definition soft_keywords : list string := ["match"; "case"; "type"; "_"].

Definition is_keyword (s : string) : bool :=
  bool_decide (s ∈ (keywords ++ soft_keywords)%list).

(** Two identifiers side by side, neither a keyword *)
Fixpoint juxtaposed_names (l : list token) : bool :=
  match l with
  | [] => false
  | NAME a :: l' =>
      match l' with
      | NAME b :: _ =>
          (negb (is_keyword a) && negb (is_keyword b)) || juxtaposed_names l'
      | _ => juxtaposed_names l'
      end
  | _ :: l' => juxtaposed_names l'
  end.

(** A logical line, with the number of its first physical line *)
Definition logical_line := (nat * list token)%type.

(** The line of the first syntax error found, if any *)
Fixpoint compile (src : list logical_line) : option nat :=
  match src with
  | [] => None
  | (n, l) :: src' => if juxtaposed_names l then Some n else compile src'
  end.

(** Lines 1 to 6 of [UIS_app.py] *)
Definition UIS_app_head : list logical_line :=
  [(1%nat, [NAME "import"; NAME "streamlit"; NAME "as"; NAME "st"]);
   (2%nat, [NAME "st"; OP "."; NAME "set_page_config"; OP "(";
            NAME "page_title"; OP "="; STRING "Analysis App"; OP ",";
            NAME "layout"; OP "="; STRING "wide"; OP ")"]);
   (4%nat, [NAME "pip"; NAME "install"; NAME "plotly"]);
   (5%nat, [NAME "import"; NAME "pandas"; NAME "as"; NAME "pd"]);
   (6%nat, [NAME "import"; NAME "plotly"; OP "."; NAME "express"; NAME "as";
            NAME "px"])].

End Syntax.

(** Running the file: the module is compiled, then one run of the script
    follows. *)
Definition exec_module {O M} `{!EqDecision O, !EqDecision M} (na : M)
    (src : list Syntax.logical_line) (fs : files) (ui : widgets)
    : App (O := O) (M := M) () :=
  λ w,
    match Syntax.compile src with
    | Some lineno => inl (SyntaxError lineno)
    | None => script na fs ui w
    end.

(** ** Tactics *)

(** Runs [main] on a page that shows no data, the page and the click being
    known: the computation is unfolded and the lookups of the page key
    resolved. *)
Ltac run_main Hpage Hclick :=
  unfold main, has_page, show_back_button, page_is, get_page, getitem,
    show_home, show_individual, st_button, st_sidebar_button, emit, set_page,
    returns, page_of in *;
  unfold mbind, App_bind, mret, App_ret;
  repeat (progress (simpl;
                    rewrite ?Hpage, ?Hclick, ?lookup_insert_eq;
                    try change (PARENTS !! "individual") with (Some "home");
                    try change (PARENTS !! "Nepal") with (Some "individual"))).

(** Membership of a given string in a given list *)
Ltac in_list := apply list_elem_of_In; vm_compute; tauto.


(** ** The rest of the script *)

(** A string that does not begin with white space *)
Definition no_leading_space (s : string) : Prop :=
  match s with
  | EmptyString => True
  | String c _ => Text.is_space c = false
  end.

(** The page that [show_back_button] goes to from [page] *)
Definition parent_or_self (page : string) : string :=
  default page (PARENTS !! page).



(** The buttons of the pages: the page that shows the button, its label and
    the page its handler goes to (lines 151 to 170). *)
Definition buttons : list (string * string * string) :=
  [("home", "Individual Analysis", "individual");
   ("home", "Cross-country Analysis", "cross");
   ("individual", "Nepal", "Nepal");
   ("individual", "USA", "USA");
   ("individual", "Estonia", "Estonia");
   ("individual", "Sierra Leone", "Sierra Leone")].

(** [run_main], with every entry of [PARENTS] *)
Ltac run_nav Hpage Hclick :=
  unfold main, has_page, show_back_button, page_is, get_page, getitem,
    show_home, show_individual, st_button, st_sidebar_button, emit, set_page,
    returns, page_of in *;
  unfold mbind, App_bind, mret, App_ret;
  repeat (progress (simpl;
                    rewrite ?Hpage, ?Hclick, ?lookup_insert_eq;
                    try change (PARENTS !! "individual") with (Some "home");
                    try change (PARENTS !! "cross") with (Some "home");
                    try change (PARENTS !! "Nepal") with (Some "individual");
                    try change (PARENTS !! "USA") with (Some "individual");
                    try change (PARENTS !! "Estonia") with (Some "individual");
                    try change (PARENTS !! "Sierra Leone")
                          with (Some "individual"))).

(** * Properties *)

Local Open Scope nat_scope.

(** ** Text *)

Example normalise_ner : Text.normalise (Some "  ner.02.cp ") = Some "NER.02.CP".
Proof. reflexivity. Qed.

Lemma normalise_missing : Text.normalise None = None.
Proof. reflexivity. Qed.


(** *** Normal forms of indicator ids *)

Lemma upper_char_idem (c : ascii) :
  Text.upper_char (Text.upper_char c) = Text.upper_char c.
Proof. destruct c as [[] [] [] [] [] [] [] []]; reflexivity. Qed.

Lemma is_space_upper_char (c : ascii) :
  Text.is_space (Text.upper_char c) = Text.is_space c.
Proof. destruct c as [[] [] [] [] [] [] [] []]; reflexivity. Qed.

Lemma is_lower_upper_char (c : ascii) :
  Text.is_lower (Text.upper_char c) = false.
Proof. destruct c as [[] [] [] [] [] [] [] []]; reflexivity. Qed.

Lemma upper_idem (s : string) : Text.upper (Text.upper s) = Text.upper s.
Proof.
  induction s as [|c s IH]; simpl; [done|]. now rewrite upper_char_idem, IH.
Qed.

Lemma upper_no_lower (s : string) :
  Forall (λ c, Text.is_lower c = false) (list_ascii_of_string (Text.upper s)).
Proof.
  induction s as [|c s IH]; simpl; constructor; [|done].
  apply is_lower_upper_char.
Qed.

Lemma upper_lstrip (s : string) :
  Text.upper (Text.lstrip s) = Text.lstrip (Text.upper s).
Proof.
  induction s as [|c s IH]; simpl; [done|]. rewrite is_space_upper_char.
  now destruct (Text.is_space c).
Qed.

Lemma upper_rstrip (s : string) :
  Text.upper (Text.rstrip s) = Text.rstrip (Text.upper s).
Proof.
  induction s as [|c s IH]; simpl; [done|].
  rewrite <- IH, is_space_upper_char.
  destruct (Text.rstrip s); simpl; [|done]. now destruct (Text.is_space c).
Qed.

Lemma upper_strip (s : string) :
  Text.upper (Text.strip s) = Text.strip (Text.upper s).
Proof. unfold Text.strip. now rewrite upper_rstrip, upper_lstrip. Qed.

Lemma rstrip_idem (s : string) : Text.rstrip (Text.rstrip s) = Text.rstrip s.
Proof.
  induction s as [|c s IH]; simpl; [done|].
  destruct (Text.rstrip s) as [|d t] eqn:E.
  - destruct (Text.is_space c) eqn:Hc; simpl; [done|]. now rewrite Hc.
  - simpl in *. now rewrite IH.
Qed.

Lemma lstrip_no_leading_space (s : string) : no_leading_space (Text.lstrip s).
Proof.
  induction s as [|c s IH]; simpl; [done|].
  destruct (Text.is_space c) eqn:E; [done|]. simpl. done.
Qed.

Lemma lstrip_fixed (s : string) : no_leading_space s → Text.lstrip s = s.
Proof. destruct s as [|c s]; simpl; [done|]. now intros ->. Qed.

Lemma rstrip_no_leading_space (s : string) :
  no_leading_space s → no_leading_space (Text.rstrip s).
Proof.
  destruct s as [|c s]; simpl; [done|]. intros Hc.
  destruct (Text.rstrip s); simpl; [now rewrite Hc|done].
Qed.

Lemma strip_idem (s : string) : Text.strip (Text.strip s) = Text.strip s.
Proof.
  unfold Text.strip.
  rewrite (lstrip_fixed (Text.rstrip _))
    by apply rstrip_no_leading_space, lstrip_no_leading_space.
  apply rstrip_idem.
Qed.

Lemma normalise_idem (c : option string) :
  Text.normalise (Text.normalise c) = Text.normalise c.
Proof.
  destruct c as [s|]; simpl; [|done].
  now rewrite upper_strip, upper_idem, strip_idem.
Qed.

(** *** The ids of the specification *)

















(** ** Binary64 cells *)

Module CellFacts.
Import Cell.
Local Open Scope Z_scope.

Lemma SFeqb_refl x : x ≠ S754_nan → SFeqb x x = true.
Proof.
  unfold SFeqb, SFcompare.
  destruct x as [s|s| |s m e]; try congruence; intros _.
  - now destruct s.
  - rewrite Z.compare_refl. fold (Pos.compare m m).
    rewrite Pos.compare_refl. now destruct s.
Qed.

Lemma SFeqb_true x y :
  SFeqb x y = true → sf_key x = sf_key y ∧ x ≠ S754_nan.
Proof.
  unfold SFeqb, SFcompare.
  destruct x as [s1|s1| |s1 m1 e1], y as [s2|s2| |s2 m2 e2]; cbn [sf_key];
    try fold (Pos.compare m1 m2);
    try destruct s1; try destruct s2; try discriminate;
    try (intros _; split; congruence).
  all: destruct (Z.compare_spec e1 e2) as [->| |]; try discriminate.
  all: destruct (Pos.compare_spec m1 m2) as [->| |]; try discriminate.
  all: intros _; split; congruence.
Qed.

Lemma SFeqb_key x y :
  SFeqb x y = true ↔ sf_key x = sf_key y ∧ x ≠ S754_nan.
Proof.
  split; [apply SFeqb_true|]. intros [Hk Hn].
  destruct x as [s1|s1| |s1 m1 e1], y as [s2|s2| |s2 m2 e2];
    cbn [sf_key] in Hk; try congruence; try reflexivity;
    injection Hk; intros; subst; apply SFeqb_refl; congruence.
Qed.

Lemma SFeqb_nan z : SFeqb z z = false ↔ z = S754_nan.
Proof.
  split; [|now intros ->].
  destruct z; try reflexivity; intros Hz;
    rewrite SFeqb_refl in Hz; congruence.
Qed.

(** [value_eqb] is the equality of the numbers, NaN being equal to NaN. *)
Lemma value_eqb_key x y : value_eqb x y = true ↔ key x = key y.
Proof.
  unfold value_eqb, is_nan, key.
  rewrite !FloatAxioms.eqb_spec, orb_true_iff, andb_true_iff,
    !negb_true_iff, SFeqb_key, !SFeqb_nan.
  split.
  - intros [[? ?]|[-> ->]]; [assumption|reflexivity].
  - intros Hk. destruct (Prim2SF x) eqn:Ex; try (left; split; congruence).
    right. split; [reflexivity|].
    destruct (Prim2SF y); cbn in Hk; congruence.
Qed.

Lemma value_eqb_refl x : value_eqb x x = true.
Proof. now apply value_eqb_key. Qed.








End CellFacts.

(** ** Integers as binary64 numbers *)

Module ExactFacts.
Import Exact.
Local Open Scope Z_scope.
Local Abbreviation bn := (binary_normalize prec emax).
Local Abbreviation br := (binary_round prec emax).


Lemma shl_pos (m : positive) (k : nat) : Z.pos (shl m k) = Z.pos m * 2 ^ Z.of_nat k.
Proof.
  induction k as [|k IH]; [simpl; lia|].
  unfold shl in *. rewrite Nat.iter_succ, Pos2Z.inj_xO, IH.
  rewrite Nat2Z.inj_succ, Z.pow_succ_r by lia. lia.
Qed.

Lemma shl_add (m : positive) (j k : nat) : shl (shl m j) k = shl m (j + k)%nat.
Proof. unfold shl. now rewrite Nat.add_comm, Nat.iter_add. Qed.

Lemma digits_shl (m : positive) (k : nat) :
  Z.pos (digits2_pos (shl m k)) = Z.pos (digits2_pos m) + Z.of_nat k.
Proof.
  induction k as [|k IH]; [simpl; lia|].
  unfold shl in *. rewrite Nat.iter_succ. cbn [digits2_pos].
  rewrite Pos2Z.inj_succ, IH. lia.
Qed.

Lemma pos_iter_shl (m d : positive) : Pos.iter xO m d = shl m (Pos.to_nat d).
Proof. apply Pos2Nat.inj_iter. Qed.

Lemma iter_pos_nat {A} (f : A → A) (p : positive) (x : A) :
  SpecFloat.iter_pos f p x = Nat.iter (Pos.to_nat p) f x.
Proof.
  revert x. induction p as [p IH|p IH|]; intros x.
  - cbn [SpecFloat.iter_pos]. rewrite !IH, Pos2Nat.inj_xI.
    replace (S (2 * Pos.to_nat p)) with (Pos.to_nat p + (Pos.to_nat p + 1))%nat by lia.
    rewrite !Nat.iter_add. done.
  - cbn [SpecFloat.iter_pos]. rewrite !IH, Pos2Nat.inj_xO.
    replace (2 * Pos.to_nat p)%nat with (Pos.to_nat p + Pos.to_nat p)%nat by lia.
    now rewrite Nat.iter_add.
  - done.
Qed.

Lemma shr_shl (m : positive) (n k : nat) :
  (n ≤ k)%nat → Nat.iter n shr_1 (exact (shl m k)) = exact (shl m (k - n)).
Proof.
  induction n as [|n IH]; intros Hn.
  - now rewrite Nat.sub_0_r.
  - rewrite Nat.iter_succ, IH by lia.
    replace (k - n)%nat with (S (k - S n)) by lia. reflexivity.
Qed.

Lemma shr_shl_ge (m : positive) (n k : nat) :
  (k ≤ n)%nat →
  Nat.iter n shr_1 (exact (shl m k)) = Nat.iter (n - k) shr_1 (exact m).
Proof.
  intros Hn.
  replace (Nat.iter n shr_1 (exact (shl m k)))
    with (Nat.iter (n - k + k) shr_1 (exact (shl m k))) by (f_equal; lia).
  rewrite Nat.iter_add, shr_shl by lia. now rewrite Nat.sub_diag.
Qed.

Lemma scaled_shl (m : positive) (j : nat) (k : Z) :
  scaled (shl m j) (k - Z.of_nat j) = scaled m k.
Proof.
  unfold scaled.
  destruct (Z.leb_spec 0 (k - Z.of_nat j)), (Z.leb_spec 0 k); try lia.
  - rewrite shl_add. do 2 f_equal. lia.
  - rewrite shr_shl by lia. do 2 f_equal. lia.
  - rewrite shr_shl_ge by lia. f_equal. lia.
Qed.

Lemma binary_round_scaled (s : bool) (m : positive) (e : Z) :
  let E := fexp prec emax (Z.pos (digits2_pos m) + e) in
  br s m e = finish s (scaled m (e - E)) E.
Proof.
  cbv zeta. unfold binary_round, shl_align, binary_round_aux.
  remember (fexp prec emax (Z.pos (digits2_pos m) + e)) as E eqn:HE.
  destruct (E - e) as [|d|d] eqn:Hd.
  - unfold shr_fexp. cbn [Zdigits2 shr_record_of_loc]. rewrite <- HE.
    replace (E - e) with 0 by lia. cbn [shr].
    replace (e - E) with 0 by lia. replace e with E by lia. reflexivity.
  - unfold shr_fexp. cbn [Zdigits2 shr_record_of_loc]. rewrite <- HE.
    rewrite Hd. cbn [shr]. rewrite iter_pos_nat.
    replace (e + Z.pos d) with E by lia.
    unfold scaled. replace (e - E) with (Z.neg d) by lia.
    reflexivity.
  - rewrite pos_iter_shl.
    unfold shr_fexp. cbn [Zdigits2 shr_record_of_loc].
    rewrite digits_shl.
    replace (fexp prec emax (Z.pos (digits2_pos m) + Z.of_nat (Pos.to_nat d) + E))
      with E by (rewrite HE at 1; f_equal; lia).
    rewrite Z.sub_diag. cbn [shr].
    unfold scaled. replace (e - E) with (Z.pos d) by lia. reflexivity.
Qed.

(** Rounding does not see how a number is split between mantissa and
    exponent. *)
Lemma binary_round_shl (s : bool) (m : positive) (j : nat) (e : Z) :
  br s (shl m j) (e - Z.of_nat j) = br s m e.
Proof.
  rewrite !binary_round_scaled. cbv zeta. rewrite digits_shl.
  replace (Z.pos (digits2_pos m) + Z.of_nat j + (e - Z.of_nat j))
    with (Z.pos (digits2_pos m) + e) by lia.
  set (E := fexp prec emax _).
  replace (e - Z.of_nat j - E) with (e - E - Z.of_nat j) by lia.
  now rewrite scaled_shl.
Qed.

Lemma digits2_pos_lb (p : positive) : 2 ^ (Z.pos (digits2_pos p) - 1) ≤ Z.pos p.
Proof.
  induction p as [p IH|p IH|]; cbn [digits2_pos]; [| |done].
  - rewrite Pos2Z.inj_succ.
    replace (Z.succ (Z.pos (digits2_pos p)) - 1)
      with (Z.succ (Z.pos (digits2_pos p) - 1)) by lia.
    rewrite Z.pow_succ_r by lia. lia.
  - rewrite Pos2Z.inj_succ.
    replace (Z.succ (Z.pos (digits2_pos p)) - 1)
      with (Z.succ (Z.pos (digits2_pos p) - 1)) by lia.
    rewrite Z.pow_succ_r by lia. lia.
Qed.

Lemma digits2_pos_le (p : positive) (n : Z) :
  Z.pos p < 2 ^ n → Z.pos (digits2_pos p) ≤ n.
Proof.
  intros Hp. pose proof (digits2_pos_lb p) as Hl.
  destruct (Z.le_gt_cases (Z.pos (digits2_pos p)) n) as [|Hgt]; [done|].
  assert (2 ^ n ≤ 2 ^ (Z.pos (digits2_pos p) - 1))
    by (apply Z.pow_le_mono_r; lia).
  lia.
Qed.

(** A mantissa of at most 53 bits is rounded to itself, written on 53
    bits. *)
Lemma binary_round_exact (s : bool) (m : positive) (e : Z) :
  let d := Z.pos (digits2_pos m) in
  d ≤ 53 → -1074 ≤ e + d - 53 ≤ 971 →
  br s m e = S754_finite s (shl m (Z.to_nat (53 - d))) (e + d - 53).
Proof.
  intros d Hd He. rewrite binary_round_scaled. cbv zeta. fold d.
  assert (HE : fexp prec emax (d + e) = e + d - 53).
  { unfold fexp, SpecFloat.emin. change prec with 53. change emax with 1024.
    lia. }
  rewrite HE. replace (e - (e + d - 53)) with (53 - d) by lia.
  unfold scaled. replace (0 <=? 53 - d) with true by (symmetry; apply Z.leb_le; lia).
  unfold finish, exact. cbn [shr_m loc_of_shr_record round_nearest_even].
  unfold shr_fexp. cbn [Zdigits2 shr_record_of_loc]. rewrite digits_shl.
  fold d. rewrite Z2Nat.id by lia.
  replace (fexp prec emax (d + (53 - d) + (e + d - 53)) - (e + d - 53)) with 0.
  2:{ unfold fexp, SpecFloat.emin. change prec with 53.
      change emax with 1024. lia. }
  cbn [shr shr_m]. change (emax - prec) with 971.
  now replace (e + d - 53 <=? 971) with true by (symmetry; apply Z.leb_le; lia).
Qed.

Lemma bn_shl (z : Z) (j : nat) (e : Z) (sz : bool) :
  bn (z * 2 ^ Z.of_nat j) (e - Z.of_nat j) sz = bn z e sz.
Proof.
  destruct z as [|p|p].
  - reflexivity.
  - rewrite <- shl_pos. apply binary_round_shl.
  - replace (Z.neg p * 2 ^ Z.of_nat j) with (Z.neg (shl p j))
      by (pose proof (shl_pos p j); lia).
    apply binary_round_shl.
Qed.

(** An integer below [2 ^ 53] is a float: its mantissa is the integer
    written on 53 bits. *)
Lemma SFZ_pos (s : bool) (p : positive) :
  Z.pos p < 2 ^ 53 →
  let d := Z.pos (digits2_pos p) in
  br s p 0 = S754_finite s (shl p (Z.to_nat (53 - d))) (d - 53).
Proof.
  intros Hp d. pose proof (digits2_pos_le p 53 Hp).
  rewrite binary_round_exact by (fold d; lia). done.
Qed.

Lemma shl_align_fst (m : positive) (e e' : Z) :
  e' ≤ e → fst (shl_align m e e') = shl m (Z.to_nat (e - e')).
Proof.
  intros He. unfold shl_align. destruct (e' - e) as [|d|d] eqn:Hd; try lia.
  - replace (e - e') with 0 by lia. reflexivity.
  - cbn [fst]. rewrite pos_iter_shl. f_equal. lia.
Qed.

(** The aligned sum in [SFadd]: the two integers at the scale of the
    smaller exponent *)
Lemma SFadd_finite (sa sb : bool) (a b : positive) :
  Z.pos a < 2 ^ 53 → Z.pos b < 2 ^ 53 →
  SF64add (br sa a 0) (br sb b 0)
  = bn (cond_Zopp sa (Z.pos a) + cond_Zopp sb (Z.pos b)) 0 false.
Proof.
  intros Ha Hb. rewrite !SFZ_pos by done. cbv zeta.
  pose proof (digits2_pos_le a 53 Ha). pose proof (digits2_pos_le b 53 Hb).
  set (da := Z.pos (digits2_pos a)) in *.
  set (db := Z.pos (digits2_pos b)) in *.
  assert (0 < da) by (unfold da; lia). assert (0 < db) by (unfold db; lia).
  unfold SF64add, SFadd.
  set (ez := Z.min (da - 53) (db - 53)).
  rewrite !shl_align_fst, !shl_add by (unfold ez; lia).
  rewrite <- (bn_shl _ (Z.to_nat (- ez)) 0).
  rewrite Z2Nat.id by (unfold ez; lia).
  replace (0 - - ez) with ez by lia. f_equal.
  rewrite !shl_pos, !Nat2Z.inj_add, !Z2Nat.id by (unfold ez; lia).
  replace (53 - da + (da - 53 - ez)) with (- ez) by lia.
  replace (53 - db + (db - 53 - ez)) with (- ez) by lia.
  destruct sa, sb; cbn [cond_Zopp]; lia.
Qed.

Lemma SFsub_finite (sa sb : bool) (a b : positive) :
  Z.pos a < 2 ^ 53 → Z.pos b < 2 ^ 53 →
  SF64sub (br sa a 0) (br sb b 0)
  = bn (cond_Zopp sa (Z.pos a) - cond_Zopp sb (Z.pos b)) 0 false.
Proof.
  intros Ha Hb. rewrite !SFZ_pos by done. cbv zeta.
  pose proof (digits2_pos_le a 53 Ha). pose proof (digits2_pos_le b 53 Hb).
  set (da := Z.pos (digits2_pos a)) in *.
  set (db := Z.pos (digits2_pos b)) in *.
  assert (0 < da) by (unfold da; lia). assert (0 < db) by (unfold db; lia).
  unfold SF64sub, SFsub.
  set (ez := Z.min (da - 53) (db - 53)).
  rewrite !shl_align_fst, !shl_add by (unfold ez; lia).
  rewrite <- (bn_shl _ (Z.to_nat (- ez)) 0).
  rewrite Z2Nat.id by (unfold ez; lia).
  replace (0 - - ez) with ez by lia. f_equal.
  rewrite !shl_pos, !Nat2Z.inj_add, !Z2Nat.id by (unfold ez; lia).
  replace (53 - da + (da - 53 - ez)) with (- ez) by lia.
  replace (53 - db + (db - 53 - ez)) with (- ez) by lia.
  destruct sa, sb; cbn [cond_Zopp]; lia.
Qed.

Lemma Prim2SF_float_of_Z (z : Z) :
  Z.abs z < 2 ^ 53 → Prim2SF (float_of_Z z) = SFZ z.
Proof.
  intros Hz. assert (Hw : 2 ^ 53 < Uint63.wB) by reflexivity.
  destruct z as [|p|p]; unfold float_of_Z, SFZ.
  - reflexivity.
  - rewrite of_uint63_spec, Uint63.of_Z_spec, Z.mod_small by lia. done.
  - rewrite opp_spec, of_uint63_spec, Uint63.of_Z_spec, Z.mod_small by lia.
    unfold binary_normalize. rewrite !SFZ_pos by lia. reflexivity.
Qed.

Lemma float_of_Z_add (a b : Z) :
  Z.abs a < 2 ^ 53 → Z.abs b < 2 ^ 53 → Z.abs (a + b) < 2 ^ 53 →
  (float_of_Z a + float_of_Z b)%float = float_of_Z (a + b).
Proof.
  intros Ha Hb Hab. apply Prim2SF_inj.
  rewrite add_spec, !Prim2SF_float_of_Z by done. unfold SFZ.
  destruct a as [|a|a], b as [|b|b]; try reflexivity;
    unfold binary_normalize at 1 2.
  all: try (cbv [Z.add]; unfold binary_normalize;
            rewrite !SFZ_pos by lia; reflexivity).
  - apply (SFadd_finite false false); lia.
  - apply (SFadd_finite false true); lia.
  - apply (SFadd_finite true false); lia.
  - apply (SFadd_finite true true); lia.
Qed.

Lemma float_of_Z_sub (a b : Z) :
  Z.abs a < 2 ^ 53 → Z.abs b < 2 ^ 53 → Z.abs (a - b) < 2 ^ 53 →
  (float_of_Z a - float_of_Z b)%float = float_of_Z (a - b).
Proof.
  intros Ha Hb Hab. apply Prim2SF_inj.
  rewrite sub_spec, !Prim2SF_float_of_Z by done. unfold SFZ.
  destruct a as [|a|a], b as [|b|b]; try reflexivity;
    unfold binary_normalize at 1 2.
  all: try (cbv [Z.sub Z.add Z.opp]; unfold binary_normalize;
            rewrite !SFZ_pos by lia; reflexivity).
  - apply (SFsub_finite false false); lia.
  - apply (SFsub_finite false true); lia.
  - apply (SFsub_finite true false); lia.
  - apply (SFsub_finite true true); lia.
Qed.

Lemma is_nan_float_of_Z (z : Z) :
  Z.abs z < 2 ^ 53 → is_nan (float_of_Z z) = false.
Proof.
  intros Hz. unfold is_nan.
  rewrite FloatAxioms.eqb_spec, Prim2SF_float_of_Z by done. unfold SFZ.
  destruct z as [|p|p]; [reflexivity| |];
    unfold binary_normalize; rewrite SFZ_pos by lia; cbv zeta;
    unfold SFeqb, SFcompare; rewrite Z.compare_refl;
    match goal with |- context [Pos.compare_cont Eq ?m ?m] =>
      fold (Pos.compare m m); rewrite Pos.compare_refl end; reflexivity.
Qed.

(** One step of the summation on integers: the sum is exact and the
    compensation stays zero. *)
Lemma kahan_add_Z (s v : Z) :
  Z.abs s < 2 ^ 53 → Z.abs v < 2 ^ 53 → Z.abs (s + v) < 2 ^ 53 →
  kahan_add (float_of_Z s, 0%float) (float_of_Z v)
  = (float_of_Z (s + v), 0%float).
Proof.
  intros Hs Hv Hsv. unfold kahan_add.
  change 0%float with (float_of_Z 0).
  rewrite (float_of_Z_sub v 0), Z.sub_0_r by (rewrite ?Z.sub_0_r; done).
  rewrite float_of_Z_add by done.
  rewrite float_of_Z_sub by (try done; replace (s + v - s) with v by lia; done).
  replace (s + v - s) with v by lia.
  rewrite float_of_Z_sub, Z.sub_diag by (rewrite ?Z.sub_diag; done).
  reflexivity.
Qed.

Lemma sum_abs_nonneg (zs : list Z) : 0 ≤ sum_abs zs.
Proof. induction zs; simpl; lia. Qed.

Lemma sum_le_sum_abs (zs : list Z) : Z.abs (sum zs) ≤ sum_abs zs.
Proof. induction zs; simpl; lia. Qed.

Lemma fold_kahan_add_Z (zs : list Z) (s : Z) :
  Z.abs s + sum_abs zs < 2 ^ 53 →
  fold_left kahan_add (float_of_Z <$> zs) (float_of_Z s, 0%float)
  = (float_of_Z (s + sum zs), 0%float).
Proof.
  revert s. induction zs as [|z zs IH]; intros s Hs; cbn [sum sum_abs] in *.
  - now rewrite Z.add_0_r.
  - pose proof (sum_abs_nonneg zs).
    rewrite fmap_cons. cbn [fold_left].
    rewrite kahan_add_Z, IH by lia. f_equal. f_equal. lia.
Qed.

Lemma filter_float_of_Z (zs : list Z) :
  Forall (λ z, Z.abs z < 2 ^ 53) zs →
  List.filter (λ v, negb (is_nan v)) (float_of_Z <$> zs) = float_of_Z <$> zs.
Proof.
  induction 1 as [|z zs Hz _ IH]; [done|].
  rewrite fmap_cons. cbn [List.filter].
  rewrite is_nan_float_of_Z by done. cbn [negb]. now rewrite IH.
Qed.

(** The mean of integers whose sum of absolute values is below [2 ^ 53]
    is the quotient, rounded once, of their exact sum by their number. *)
Lemma group_mean_Z (zs : list Z) :
  zs ≠ [] → sum_abs zs < 2 ^ 53 →
  group_mean (float_of_Z <$> zs)
  = (float_of_Z (sum zs) / count_to_float (length zs))%float.
Proof.
  intros Hne Hs. unfold group_mean.
  assert (Hall : Forall (λ z, Z.abs z < 2 ^ 53) zs).
  { clear Hne. induction zs as [|z zs IH]; constructor; cbn [sum_abs] in Hs.
    - pose proof (sum_abs_nonneg zs). lia.
    - apply IH. lia. }
  rewrite filter_float_of_Z by done.
  destruct zs as [|z zs]; [done|]. rewrite length_fmap.
  change (float_of_Z <$> z :: zs) with (float_of_Z <$> (z :: zs)).
  set (l := z :: zs) in *.
  assert (E : fold_left kahan_add (float_of_Z <$> l) (0%float, 0%float)
              = (float_of_Z (sum l), 0%float)).
  { change (0%float, 0%float) with (float_of_Z 0, 0%float).
    rewrite fold_kahan_add_Z by (rewrite Z.abs_0; lia). done. }
  unfold l at 1. cbn [fmap list_fmap]. 
  change (float_of_Z z :: list_fmap _ _ float_of_Z zs) with (float_of_Z <$> l).
  now rewrite E.
Qed.

Lemma digits2_pos_ub (p : positive) : Z.pos p < 2 ^ Z.pos (digits2_pos p).
Proof.
  induction p as [p IH|p IH|]; cbn [digits2_pos]; [| |done];
    rewrite Pos2Z.inj_succ, Z.pow_succ_r by lia; lia.
Qed.

Lemma digits2_pos_mul (a b : positive) :
  Z.pos (digits2_pos (a * b))
  ≤ Z.pos (digits2_pos a) + Z.pos (digits2_pos b).
Proof.
  apply digits2_pos_le. rewrite Pos2Z.inj_mul, Z.pow_add_r by lia.
  pose proof (digits2_pos_ub a). pose proof (digits2_pos_ub b). nia.
Qed.

(** A mantissa that needs no shift to the left is rounded as it is. *)
Lemma binary_round_aux_exact (s : bool) (m : positive) (e : Z) :
  e ≤ fexp prec emax (Z.pos (digits2_pos m) + e) →
  binary_round_aux prec emax s (Z.pos m) e loc_Exact = br s m e.
Proof.
  intros He. unfold binary_round, shl_align.
  destruct (fexp prec emax (Z.pos (digits2_pos m) + e) - e) eqn:E;
    [done|done|lia].
Qed.

Lemma div_eucl_mul (a b : Z) : 0 < b → Z.div_eucl (a * b) b = (a, 0).
Proof.
  intros Hb. pose proof (Z.div_mul a b ltac:(lia)) as Hd.
  pose proof (Z.mod_mul a b ltac:(lia)) as Hm.
  unfold Z.div, Z.modulo in *. destruct (Z.div_eucl (a * b) b). congruence.
Qed.

(** The quotient of two integers below [2 ^ 53], one a multiple of the
    other, is exact. *)
Lemma SFdiv_exact (s : bool) (q n : positive) :
  Z.pos (q * n) < 2 ^ 53 →
  SF64div (br s (q * n) 0) (br false n 0) = br s q 0.
Proof.
  intros Hqn.
  assert (Hn : Z.pos n < 2 ^ 53) by nia.
  assert (Hq : Z.pos q < 2 ^ 53) by nia.
  rewrite !SFZ_pos by done. cbv zeta.
  pose proof (digits2_pos_le _ 53 Hqn). pose proof (digits2_pos_le _ 53 Hn).
  pose proof (digits2_pos_le _ 53 Hq). pose proof (digits2_pos_mul q n).
  set (d1 := Z.pos (digits2_pos (q * n))) in *.
  set (d2 := Z.pos (digits2_pos n)) in *.
  set (dq := Z.pos (digits2_pos q)) in *.
  assert (0 < d1) by (unfold d1; lia). assert (0 < d2) by (unfold d2; lia).
  assert (0 < dq) by (unfold dq; lia).
  unfold SF64div, SFdiv, SFdiv_core_binary. cbn [Zdigits2].
  rewrite !digits_shl. fold d1 d2. rewrite !Z2Nat.id by lia.
  rewrite xorb_false_r.
  replace (Z.min (fexp prec emax (d1 + (53 - d1) + (d1 - 53)
                                   - (d2 + (53 - d2) + (d2 - 53))))
             (d1 - 53 - (d2 - 53))) with (d1 - d2 - 53).
  2:{ unfold fexp, SpecFloat.emin. change prec with 53.
      change emax with 1024. lia. }
  replace (d1 - 53 - (d2 - 53) - (d1 - d2 - 53)) with 53 by lia. cbv iota.
  change IntDef.Z.div_eucl with Z.div_eucl.
  change IntDef.Z.shiftl with Z.shiftl.
  rewrite Z.shiftl_mul_pow2 by lia.
  set (K := Z.to_nat (53 - d1 + d2)).
  replace (Z.pos (shl (q * n) (Z.to_nat (53 - d1))) * 2 ^ 53)
    with (Z.pos (shl q K) * Z.pos (shl n (Z.to_nat (53 - d2)))).
  2:{ rewrite !shl_pos, Pos2Z.inj_mul. unfold K.
      rewrite !Z2Nat.id by lia.
      replace (53 - d1 + d2) with ((53 - d1) + (53 - (53 - d2))) by lia.
      rewrite Z.pow_add_r by lia.
      replace (2 ^ 53) with (2 ^ (53 - (53 - d2)) * 2 ^ (53 - d2)).
      2:{ rewrite <- Z.pow_add_r by lia. f_equal. lia. }
      ring. }
  rewrite div_eucl_mul by lia.
  replace (new_location (Z.pos (shl n (Z.to_nat (53 - d2)))) 0)
    with loc_Exact
    by (unfold new_location; now destruct (Z.even _)).
  rewrite binary_round_aux_exact.
  - replace (d1 - d2 - 53) with (0 - Z.of_nat K) by (unfold K; lia).
    rewrite binary_round_shl. now rewrite SFZ_pos.
  - rewrite digits_shl. fold dq. unfold fexp, SpecFloat.emin.
    change prec with 53. change emax with 1024. unfold K. lia.
Qed.

Lemma float_of_Z_div (q n : Z) :
  0 < n < 2 ^ 53 → Z.abs (q * n) < 2 ^ 53 →
  (float_of_Z (q * n) / float_of_Z n)%float = float_of_Z q.
Proof.
  intros Hn Hqn. apply Prim2SF_inj.
  assert (Z.abs n < 2 ^ 53 ∧ Z.abs q < 2 ^ 53) as [? ?].
  { pose proof Hqn as H. rewrite Z.abs_mul in H.
    pose proof (Z.abs_nonneg q). rewrite (Z.abs_eq n) in * by lia. nia. }
  rewrite div_spec, !Prim2SF_float_of_Z by done. unfold SFZ.
  destruct n as [|n|n]; try lia.
  destruct q as [|q|q]; unfold binary_normalize.
  - cbv [Z.mul]. rewrite SFZ_pos by lia. reflexivity.
  - change (Z.pos q * Z.pos n) with (Z.pos (q * n)).
    apply SFdiv_exact. lia.
  - change (Z.neg q * Z.pos n) with (Z.neg (q * n)).
    apply SFdiv_exact. lia.
Qed.

Lemma count_to_float_of_Z (n : nat) :
  count_to_float n = float_of_Z (Z.of_nat n).
Proof. unfold count_to_float. now destruct n. Qed.

(** When their number divides their sum, the mean of integers is the exact
    quotient. *)
Lemma group_mean_Z_exact (zs : list Z) (q : Z) :
  zs ≠ [] → sum_abs zs < 2 ^ 53 → Z.of_nat (length zs) < 2 ^ 53 →
  sum zs = q * Z.of_nat (length zs) →
  group_mean (float_of_Z <$> zs) = float_of_Z q.
Proof.
  intros Hne Hs Hn Hq. rewrite group_mean_Z, count_to_float_of_Z, Hq by done.
  pose proof (sum_le_sum_abs zs).
  apply float_of_Z_div; [destruct zs; [done|simpl in *; lia]|lia].
Qed.

Lemma sum_abs_Forall (zs : list Z) (b : Z) :
  sum_abs zs < b → Forall (λ z, Z.abs z < b) zs.
Proof.
  induction zs as [|z zs IH]; intros Hs; constructor; cbn [sum_abs] in Hs.
  - pose proof (sum_abs_nonneg zs). lia.
  - apply IH. lia.
Qed.

(** The mean of a group whose values, the missing ones apart, are integers:
    NaN when there is none, and else the quotient, rounded once, of their
    exact sum by their number. *)
Lemma group_mean_integers (vals : list float) (zs : list Z) :
  List.filter (λ v, negb (is_nan v)) vals = float_of_Z <$> zs →
  sum_abs zs < 2 ^ 53 →
  group_mean vals
  = match zs with
    | [] => nan
    | _ => (float_of_Z (sum zs) / count_to_float (length zs))%float
    end.
Proof.
  intros Hv Hs. destruct zs as [|z zs].
  - unfold group_mean. now rewrite Hv.
  - rewrite <- (group_mean_Z (z :: zs)) by done. unfold group_mean.
    now rewrite Hv, filter_float_of_Z by now apply sum_abs_Forall.
Qed.

End ExactFacts.

(** ** The orders *)

Lemma string_compare_refl (s : string) : String.compare s s = Eq.
Proof.
  induction s as [|c s IH]; [reflexivity|]. simpl.
  unfold Ascii.compare. now rewrite N.compare_refl.
Qed.

Lemma string_compare_Lt_trans (a b c : string) :
  String.compare a b = Lt → String.compare b c = Lt → String.compare a c = Lt.
Proof.
  revert b c. induction a as [|x a IH]; intros [|y b] [|z c]; simpl;
    try congruence.
  unfold Ascii.compare.
  destruct (N.compare_spec (N_of_ascii x) (N_of_ascii y)) as [Hxy|Hxy|Hxy];
    destruct (N.compare_spec (N_of_ascii y) (N_of_ascii z)) as [Hyz|Hyz|Hyz];
    try congruence; intros H1 H2.
  - rewrite Hxy, Hyz, N.compare_refl. eauto.
  - rewrite Hxy. now apply N.compare_lt_iff in Hyz as ->.
  - rewrite <- Hyz. now apply N.compare_lt_iff in Hxy as ->.
  - assert (Hxz : (N_of_ascii x < N_of_ascii z)%N) by lia.
    now apply N.compare_lt_iff in Hxz as ->.
Qed.

Lemma string_leb_refl (s : string) : String.leb s s = true.
Proof. unfold String.leb. now rewrite string_compare_refl. Qed.

Lemma string_leb_trans (a b c : string) :
  String.leb a b = true → String.leb b c = true → String.leb a c = true.
Proof.
  unfold String.leb.
  destruct (String.compare a b) eqn:Hab; try discriminate;
    destruct (String.compare b c) eqn:Hbc; try discriminate; intros _ _.
  - apply String.compare_eq_iff in Hab as ->. now rewrite Hbc.
  - apply String.compare_eq_iff in Hab as ->. now rewrite Hbc.
  - apply String.compare_eq_iff in Hbc as <-. now rewrite Hab.
  - now rewrite (string_compare_Lt_trans a b c).
Qed.

Lemma cell_le_refl : Reflexive cell_le.
Proof. intros [x|]; simpl; [apply string_leb_refl|done]. Qed.

Lemma cell_le_trans : Transitive cell_le.
Proof.
  intros [x|] [y|] [z|]; simpl; try done. apply string_leb_trans.
Qed.

Lemma cell_le_total : Total cell_le.
Proof.
  intros [x|] [y|]; simpl; try tauto. apply String.leb_total.
Qed.

Lemma cell_le_antisym (a b : option string) :
  cell_le a b → cell_le b a → a = b.
Proof.
  destruct a as [x|], b as [y|]; simpl; try done.
  intros H1 H2. f_equal. now apply String.leb_antisym.
Qed.

Lemma indicator_le_trans : Transitive indicator_le.
Proof. intros p q r; unfold indicator_le; apply cell_le_trans. Qed.

Lemma indicator_le_total : Total indicator_le.
Proof. intros p q; unfold indicator_le; apply cell_le_total. Qed.

Lemma key_le_trans : Transitive key_le.
Proof.
  intros [y1 c1] [y2 c2] [y3 c3]; unfold key_le; simpl.
  intros [H1|[-> H1]] [H2|[-> H2]]; try (left; lia).
  right. split; [done|]. eapply string_leb_trans; eauto.
Qed.

Lemma key_le_total : Total key_le.
Proof.
  intros [y1 c1] [y2 c2]; unfold key_le; simpl.
  destruct (Z.lt_trichotomy y1 y2) as [?|[->|?]]; try tauto.
  destruct (String.leb_total c1 c2); tauto.
Qed.

Lemma key_le_antisym (a b : Z * string) : key_le a b → key_le b a → a = b.
Proof.
  destruct a as [y1 c1], b as [y2 c2]; unfold key_le; simpl.
  intros [H1|[-> H1]] [H2|[H2 H3]]; try lia.
  f_equal. now apply String.leb_antisym.
Qed.

Global Existing Instances cell_le_refl cell_le_trans cell_le_total
  indicator_le_trans indicator_le_total key_le_trans key_le_total.

(** ** The stable sort *)

Section stable_sort.
Context {A : Type} (R : relation A) `{!RelDecision R}.

Lemma insert_sorted_Permutation (x : A) (l : list A) :
  insert_sorted R x l ≡ₚ x :: l.
Proof.
  induction l as [|y l IH]; simpl; [done|].
  destruct (decide (R x y)); [done|]. now rewrite IH, perm_swap.
Qed.

Lemma stable_sort_Permutation (l : list A) : stable_sort R l ≡ₚ l.
Proof.
  induction l as [|x l IH]; simpl; [done|].
  now rewrite insert_sorted_Permutation, IH.
Qed.

Lemma insert_sorted_StronglySorted `{!Transitive R, !Total R}
    (x : A) (l : list A) :
  StronglySorted R l → StronglySorted R (insert_sorted R x l).
Proof.
  induction 1 as [|y l Hl IH Hy]; simpl.
  - repeat constructor.
  - destruct (decide (R x y)) as [Hxy|Hxy].
    + constructor; [now constructor|]. constructor; [done|].
      eapply Forall_impl; [exact Hy|]. intros z Hz. by etrans.
    + constructor; [done|]. rewrite insert_sorted_Permutation.
      constructor; [|done]. by destruct (total R x y).
Qed.

Lemma stable_sort_StronglySorted `{!Transitive R, !Total R} (l : list A) :
  StronglySorted R (stable_sort R l).
Proof.
  induction l as [|x l IH]; simpl; [constructor|].
  now apply insert_sorted_StronglySorted.
Qed.

(** The sort is stable: rows that the order does not tell apart come out in
    the order they had. *)
Lemma insert_sorted_filter (P : A → Prop) `{!∀ x, Decision (P x)}
    (x : A) (l : list A) :
  (∀ y, P x → P y → R x y) →
  filter P (insert_sorted R x l) = filter P (x :: l).
Proof.
  intros HR. induction l as [|y l IH]; simpl; [done|].
  destruct (decide (R x y)) as [Hxy|Hxy]; [done|].
  rewrite filter_cons, IH, !filter_cons.
  destruct (decide (P y)), (decide (P x)); try done.
  destruct Hxy. now apply HR.
Qed.

Lemma stable_sort_filter (P : A → Prop) `{!∀ x, Decision (P x)}
    (l : list A) :
  (∀ x y, P x → P y → R x y) →
  filter P (stable_sort R l) = filter P l.
Proof.
  intros HR. induction l as [|x l IH]; simpl; [done|].
  rewrite insert_sorted_filter, !filter_cons, IH by auto. done.
Qed.

End stable_sort.

(** ** [drop_duplicates]

    The rows that count as the same row are those with the same [key]. *)

Section drop_duplicates.
Context {A K : Type} (same : A → A → bool) (key : A → K).
Hypothesis same_key : ∀ x y, same x y = true ↔ key x = key y.

Lemma existsb_same x seen :
  existsb (same x) seen = true ↔ key x ∈ key <$> seen.
Proof.
  rewrite existsb_exists, list_elem_of_fmap. split.
  - intros (y & Hy & Hs). exists y. split; [now apply same_key|].
    now apply list_elem_of_In.
  - intros (y & Hk & Hy). exists y. split; [now apply list_elem_of_In|].
    now apply same_key.
Qed.

Lemma drop_duplicates_from_sublist seen l :
  drop_duplicates_from same seen l `sublist_of` l.
Proof.
  revert seen. induction l as [|x l IH]; intros seen; simpl; [constructor|].
  destruct (existsb (same x) seen).
  - apply sublist_cons. apply IH.
  - apply sublist_skip. apply IH.
Qed.

Lemma drop_duplicates_from_fresh seen l x :
  x ∈ drop_duplicates_from same seen l → key x ∉ key <$> seen.
Proof.
  revert seen. induction l as [|y l IH]; intros seen; simpl.
  - intros H. inversion H.
  - destruct (existsb (same y) seen) eqn:E.
    + apply IH.
    + intros [->|Hx]%elem_of_cons.
      * rewrite <- existsb_same, E. discriminate.
      * apply IH in Hx. rewrite fmap_cons, not_elem_of_cons in Hx. tauto.
Qed.

Lemma drop_duplicates_from_NoDup seen l :
  NoDup (key <$> drop_duplicates_from same seen l).
Proof.
  revert seen. induction l as [|x l IH]; intros seen; simpl; [constructor|].
  destruct (existsb (same x) seen); [apply IH|].
  rewrite fmap_cons. constructor; [|apply IH].
  intros (y & Hk & Hy)%list_elem_of_fmap.
  apply drop_duplicates_from_fresh in Hy.
  apply Hy. rewrite fmap_cons, <- Hk. left.
Qed.

Lemma drop_duplicates_from_complete seen l x :
  x ∈ l →
  key x ∈ key <$> seen ∨ key x ∈ key <$> drop_duplicates_from same seen l.
Proof.
  revert seen. induction l as [|y l IH]; intros seen; simpl.
  - intros H. inversion H.
  - intros [->|Hx]%elem_of_cons.
    + destruct (existsb (same y) seen) eqn:E.
      * left. now apply existsb_same.
      * right. rewrite fmap_cons. left.
    + destruct (existsb (same y) seen) eqn:E; [now apply IH|].
      destruct (IH (y :: seen) Hx) as [H|H].
      * rewrite fmap_cons in H. apply elem_of_cons in H as [H|H];
          [|now left].
        right. rewrite fmap_cons, H. left.
      * right. rewrite fmap_cons. now right.
Qed.

(** The result keeps the order of the rows and leaves out rows only. *)
Lemma drop_duplicates_sublist l : drop_duplicates same l `sublist_of` l.
Proof. apply drop_duplicates_from_sublist. Qed.

Lemma elem_of_drop_duplicates l x : x ∈ drop_duplicates same l → x ∈ l.
Proof. intros Hx. eapply elem_of_sublist, drop_duplicates_sublist. done. Qed.

(** No two rows of the result are the same row. *)
Lemma drop_duplicates_NoDup l : NoDup (key <$> drop_duplicates same l).
Proof. apply drop_duplicates_from_NoDup. Qed.

(** Every row is the same row as one of the result. *)
Lemma drop_duplicates_complete l x :
  x ∈ l → ∃ y, y ∈ drop_duplicates same l ∧ same y x = true.
Proof.
  intros Hx.
  destruct (drop_duplicates_from_complete [] l x Hx) as [H|H].
  - inversion H.
  - apply list_elem_of_fmap in H as (y & Hk & Hy).
    exists y. split; [done|]. now apply same_key.
Qed.




End drop_duplicates.

(** With plain equality as the identity of rows, the result has no repeated
    element and the same elements. *)
Lemma drop_duplicates_eq_NoDup {A} `{!EqDecision A} (l : list A) :
  NoDup (drop_duplicates (λ p q, bool_decide (p = q)) l).
Proof.
  rewrite <- (list_fmap_id (drop_duplicates _ l)).
  apply drop_duplicates_NoDup. intros x y. apply bool_decide_eq_true.
Qed.

Lemma elem_of_drop_duplicates_eq {A} `{!EqDecision A} (l : list A) x :
  x ∈ drop_duplicates (λ p q, bool_decide (p = q)) l ↔ x ∈ l.
Proof.
  split.
  - apply elem_of_drop_duplicates.
  - intros Hx.
    destruct (drop_duplicates_complete _ id
                (λ a b, bool_decide_eq_true (a = b)) l x Hx) as (y & Hy & E).
    apply bool_decide_eq_true in E. now subst.
Qed.

(** ** The loader *)

Section loader.
Context {O M : Type} `{!EqDecision O, !EqDecision M}.
Variable na : M.
Implicit Types (data : list (data_row O)) (metadata : list (meta_row M)).
Implicit Types (d : data_row O) (m : meta_row M) (r : row O M).

Lemma load_data_merge_left (raw : list (raw_row O)) metadata :
  load_data na raw metadata = merge_left na (prepared <$> raw) metadata.
Proof. unfold load_data. now rewrite <- list_fmap_compose. Qed.

Lemma elem_of_matches metadata d m :
  m ∈ matches metadata d ↔ m ∈ metadata ∧ m_INDICATOR_ID m = d_INDICATOR_ID d.
Proof. unfold matches. rewrite list_elem_of_filter. tauto. Qed.

Lemma matches_nil metadata d :
  matches metadata d = [] ↔
  ∀ m, m ∈ metadata → m_INDICATOR_ID m ≠ d_INDICATOR_ID d.
Proof.
  split.
  - intros E m Hm Hk.
    assert (H : m ∈ matches metadata d) by now apply elem_of_matches.
    rewrite E in H. inversion H.
  - intros H. destruct (matches metadata d) as [|m ms] eqn:E; [done|].
    assert (Hm : m ∈ matches metadata d) by (rewrite E; left).
    apply elem_of_matches in Hm as [Hm Hk]. now destruct (H m).
Qed.

Lemma merge_left_bind data metadata :
  merge_left na data metadata = data ≫= merged_rows na metadata.
Proof. reflexivity. Qed.

Lemma merged_rows_nonempty metadata d : 1 ≤ length (merged_rows na metadata d).
Proof.
  unfold merged_rows. destruct (matches metadata d); simpl; lia.
Qed.

Lemma matches_unique metadata d :
  NoDup (m_INDICATOR_ID <$> metadata) → length (matches metadata d) ≤ 1.
Proof.
  unfold matches. induction metadata as [|m ms IH]; simpl; [lia|].
  rewrite NoDup_cons. intros [Hm Hms]. rewrite filter_cons.
  destruct (decide (m_INDICATOR_ID m = d_INDICATOR_ID d)) as [E|]; [|auto].
  simpl. replace (filter _ ms) with (@nil (meta_row M)); [simpl; lia|].
  symmetry. apply (matches_nil ms d). intros m' Hm' E'.
  apply Hm. rewrite E, <- E'. now apply list_elem_of_fmap_2.
Qed.

Lemma merged_rows_unique metadata d :
  NoDup (m_INDICATOR_ID <$> metadata) → length (merged_rows na metadata d) = 1.
Proof.
  intros H%(matches_unique _ d). unfold merged_rows.
  destruct (matches metadata d) as [|m [|m' ms]]; simpl in *; lia.
Qed.

(** A left join never drops a row of its left side. *)
Lemma length_merge_left_ge data metadata :
  length data ≤ length (merge_left na data metadata).
Proof.
  rewrite merge_left_bind. induction data as [|d data IH]; [done|].
  rewrite bind_cons, length_app. simpl.
  pose proof (merged_rows_nonempty metadata d). lia.
Qed.

Lemma length_merge_left_unique data metadata :
  NoDup (m_INDICATOR_ID <$> metadata) →
  length (merge_left na data metadata) = length data.
Proof.
  intros Hu. rewrite merge_left_bind. induction data as [|d data IH]; [done|].
  rewrite bind_cons, length_app, IH, merged_rows_unique by done. done.
Qed.

Lemma elem_of_merged_rows metadata d r :
  r ∈ merged_rows na metadata d ↔
  (∃ m, m ∈ metadata ∧ m_INDICATOR_ID m = d_INDICATOR_ID d ∧ r = joined d m)
  ∨ ((∀ m, m ∈ metadata → m_INDICATOR_ID m ≠ d_INDICATOR_ID d)
     ∧ r = unmatched na d).
Proof.
  unfold merged_rows. destruct (matches metadata d) as [|m0 ms] eqn:E.
  - rewrite list_elem_of_singleton.
    pose proof (proj1 (matches_nil _ _) E) as Hno. split.
    + intros ->. now right.
    + intros [(m & Hm & Hk & _)|[_ ->]]; [|done]. now destruct (Hno m).
  - rewrite <- E, list_elem_of_fmap. split.
    + intros (m & -> & Hm). apply elem_of_matches in Hm as [? ?].
      left. eauto.
    + intros [(m & Hm & Hk & ->)|[Hno _]].
      * exists m. split; [done|]. now apply elem_of_matches.
      * apply (proj2 (matches_nil _ _)) in Hno. congruence.
Qed.

(** The rows of the merged table: every row of [data], joined with each
    metadata row of its key, or alone when there is none. *)
Lemma elem_of_merge_left data metadata r :
  r ∈ merge_left na data metadata ↔
  ∃ d, d ∈ data ∧
    ((∃ m, m ∈ metadata ∧ m_INDICATOR_ID m = d_INDICATOR_ID d
           ∧ r = joined d m)
     ∨ ((∀ m, m ∈ metadata → m_INDICATOR_ID m ≠ d_INDICATOR_ID d)
        ∧ r = unmatched na d)).
Proof.
  rewrite merge_left_bind, list_elem_of_bind.
  split; intros (d & H1 & H2); exists d.
  - split; [done|]. now apply elem_of_merged_rows.
  - split; [|done]. now apply elem_of_merged_rows.
Qed.

(** With one metadata row per indicator id, the id of a merged row
    determines its label. *)
Lemma merge_left_label_unique data metadata r1 r2 :
  NoDup (m_INDICATOR_ID <$> metadata) →
  r1 ∈ merge_left na data metadata → r2 ∈ merge_left na data metadata →
  INDICATOR_ID r1 = INDICATOR_ID r2 →
  INDICATOR_LABEL_EN r1 = INDICATOR_LABEL_EN r2.
Proof.
  intros Hu (d1 & _ & H1)%elem_of_merge_left (d2 & _ & H2)%elem_of_merge_left.
  destruct H1 as [(m1 & Hm1 & Hk1 & ->)|[Hno1 ->]],
           H2 as [(m2 & Hm2 & Hk2 & ->)|[Hno2 ->]]; simpl; intros E.
  - f_equal. apply list_elem_of_lookup in Hm1 as [i Hi].
    apply list_elem_of_lookup in Hm2 as [j Hj].
    assert (i = j) as ->; [|congruence].
    eapply NoDup_lookup; [exact Hu| |]; rewrite list_lookup_fmap.
    + now rewrite Hi.
    + rewrite Hj. simpl. congruence.
  - destruct (Hno2 m1 Hm1). congruence.
  - destruct (Hno1 m2 Hm2). congruence.
  - done.
Qed.

End loader.

(** C1, as the specification states it, fails when two rows of the metadata
    carry the same indicator id: the left join then yields the observation
    row once per matching row. *)
Lemma load_data_duplicated_metadata :
  let data := [RawRow (Some "NPL") (Some "NER.02.CP") None 2010%Z 1%float ()] in
  let metadata := [MetaRow (Some "NER.02.CP") (Some "Net enrolment rate") ();
                   MetaRow (Some "NER.02.CP") (Some "Net enrolment") ()] in
  length (load_data () data metadata) = 2 ∧ length data = 1.
Proof. split; reflexivity. Qed.

(** C1 (amended): when the metadata has at most one row per indicator id, the
    table returned by [load_data] has exactly as many rows as the observation
    table; the rows whose indicator id matches no metadata row are kept. *)
Theorem load_data_row_count {O M} (na : M)
    (data : list (raw_row O)) (metadata : list (meta_row M)) :
  NoDup (m_INDICATOR_ID <$> metadata) →
  length (load_data na data metadata) = length data.
Proof.
  intros Hu. rewrite load_data_merge_left, length_merge_left_unique by done.
  apply length_fmap.
Qed.

Lemma load_data_row_count_witness :
  let data := [RawRow (Some "NPL") (Some " ner.02.cp") None 2010%Z 1%float ();
               RawRow (Some "NPL") (Some "XGDP.FSGOV") None 2010%Z 4%float ()] in
  let metadata := [MetaRow (Some "NER.02.CP") (Some "Net enrolment rate") ()] in
  NoDup (m_INDICATOR_ID <$> metadata)
  ∧ length (load_data () data metadata) = length data.
Proof.
  cbv zeta. split.
  - apply NoDup_singleton.
  - apply load_data_row_count. apply NoDup_singleton.
Defined.

(** Without the precondition the merged table is at least as long. *)
Lemma load_data_row_count_ge {O M} (na : M)
    (data : list (raw_row O)) (metadata : list (meta_row M)) :
  length data ≤ length (load_data na data metadata).
Proof.
  rewrite load_data_merge_left.
  etrans; [|apply length_merge_left_ge]. now rewrite length_fmap.
Qed.

(** C6: after [load_data], an observation row whose normalised indicator id
    is the id of a metadata row yields a merged row with the label of that
    metadata row, so a label that is present there is present in the merged
    row; an observation row whose id is the id of no metadata row yields a
    merged row too, with a missing label; and the merged table has no other
    rows. *)
Theorem load_data_labels {O M} (na : M)
    (data : list (raw_row O)) (metadata : list (meta_row M)) :
  (∀ o m label,
     o ∈ data → m ∈ metadata →
     m_INDICATOR_ID m = Text.normalise (raw_indicator_id o) →
     m_INDICATOR_LABEL_EN m = Some label →
     ∃ r, r ∈ load_data na data metadata
          ∧ r = joined (prepared o) m
          ∧ INDICATOR_LABEL_EN r = Some label)
  ∧ (∀ o,
       o ∈ data →
       (∀ m, m ∈ metadata →
             m_INDICATOR_ID m ≠ Text.normalise (raw_indicator_id o)) →
       ∃ r, r ∈ load_data na data metadata
            ∧ r = unmatched na (prepared o)
            ∧ INDICATOR_LABEL_EN r = None)
  ∧ (∀ r,
       r ∈ load_data na data metadata →
       ∃ o, o ∈ data
            ∧ INDICATOR_ID r = Text.normalise (raw_indicator_id o)
            ∧ ((∃ m, m ∈ metadata
                     ∧ m_INDICATOR_ID m = INDICATOR_ID r
                     ∧ r = joined (prepared o) m
                     ∧ INDICATOR_LABEL_EN r = m_INDICATOR_LABEL_EN m)
               ∨ ((∀ m, m ∈ metadata → m_INDICATOR_ID m ≠ INDICATOR_ID r)
                  ∧ r = unmatched na (prepared o)
                  ∧ INDICATOR_LABEL_EN r = None))).
Proof.
  rewrite load_data_merge_left. split; [|split].
  - intros o m label Ho Hm Hk Hl. exists (joined (prepared o) m).
    split; [|done]. apply elem_of_merge_left. exists (prepared o).
    split; [now apply list_elem_of_fmap_2|]. left. eauto.
  - intros o Ho Hno. exists (unmatched na (prepared o)).
    split; [|done]. apply elem_of_merge_left. exists (prepared o).
    split; [now apply list_elem_of_fmap_2|]. now right.
  - intros r (d & Hd & H)%elem_of_merge_left.
    apply list_elem_of_fmap in Hd as (o & -> & Ho). exists o. split; [done|].
    destruct H as [(m & Hm & Hk & ->)|[Hno ->]].
    + split; [done|]. left. exists m. done.
    + split; [done|]. now right.
Qed.

(** ** The queries *)

Section queries.
Context {O M : Type} `{!EqDecision O, !EqDecision M}.
Implicit Types (t df : list (row O M)) (r : row O M).

Lemma row_eqb_key r1 r2 : row_eqb r1 r2 = true ↔ row_key r1 = row_key r2.
Proof.
  unfold row_eqb, row_key.
  rewrite !andb_true_iff, !bool_decide_eq_true, CellFacts.value_eqb_key.
  split.
  - intros [[[[[[-> ->] ->] ->] ->] ->] ->]. done.
  - intros [= -> -> -> -> -> -> ->]. done.
Qed.

Lemma row_eqb_refl r : row_eqb r r = true.
Proof. now apply row_eqb_key. Qed.



(** *** The rows of a country *)

Lemma elem_of_filterByCountry t c r :
  r ∈ filterByCountry t c ↔ r ∈ t ∧ country_id r = Some c.
Proof. unfold filterByCountry. rewrite list_elem_of_filter. tauto. Qed.

Lemma elem_of_unique_indicators t c (p : indicator) :
  p ∈ unique_indicators t c ↔
  ∃ r, r ∈ t ∧ country_id r = Some c
       ∧ p = (INDICATOR_ID r, INDICATOR_LABEL_EN r).
Proof.
  unfold unique_indicators, sort_values.
  rewrite stable_sort_Permutation, elem_of_drop_duplicates_eq,
    list_elem_of_fmap.
  split.
  - intros (r & -> & Hr). apply elem_of_filterByCountry in Hr as [? ?].
    exists r. done.
  - intros (r & Hr & Hc & ->). exists r. split; [done|].
    now apply elem_of_filterByCountry.
Qed.

Lemma unique_indicators_NoDup t c : NoDup (unique_indicators t c).
Proof.
  unfold unique_indicators, sort_values.
  rewrite stable_sort_Permutation. apply drop_duplicates_eq_NoDup.
Qed.

Lemma indicator_options_sorted t c :
  StronglySorted cell_le (indicator_options t c).
Proof.
  unfold indicator_options.
  apply (StronglySorted_fmap fst indicator_le cell_le); [by intros p q|].
  apply stable_sort_StronglySorted; apply _.
Qed.

(** When the id of a row determines its label, each id is offered once. *)
Lemma indicator_options_NoDup t c :
  (∀ r1 r2, r1 ∈ t → r2 ∈ t → INDICATOR_ID r1 = INDICATOR_ID r2 →
            INDICATOR_LABEL_EN r1 = INDICATOR_LABEL_EN r2) →
  NoDup (indicator_options t c).
Proof.
  intros Hfd. unfold indicator_options.
  apply NoDup_fmap_2_strong; [|apply unique_indicators_NoDup].
  intros p q (r1 & H1 & _ & ->)%elem_of_unique_indicators
             (r2 & H2 & _ & ->)%elem_of_unique_indicators; simpl.
  intros E. f_equal; [done|]. now apply Hfd.
Qed.

(** *** The rows of an indicator *)


Lemma elem_of_filterByIndicator t sel r :
  r ∈ filterByIndicator t sel → r ∈ t ∧ INDICATOR_ID r = Some sel.
Proof.
  unfold filterByIndicator. intros H%elem_of_drop_duplicates.
  apply list_elem_of_filter in H. tauto.
Qed.





End queries.

(** ** The mean of a group *)


Example group_mean_10_20 : group_mean [10%float; 20%float] = 15%float.
Proof. reflexivity. Qed.

Lemma group_mean_missing : group_mean [nan] = nan.
Proof. reflexivity. Qed.




Section aggregation.
Context {O M : Type} `{!EqDecision O, !EqDecision M}.
Implicit Types (t df : list (row O M)) (r : row O M) (k : Z * string).

Lemma group_key_Some r k :
  group_key r = Some k ↔ year r = k.1 ∧ country_id r = Some k.2.
Proof.
  unfold group_key. destruct k as [y c], (country_id r) as [c'|]; simpl.
  - split; [intros [= -> ->]; done|intros [-> [= ->]]; done].
  - split; [done|intros [_ [=]]].
Qed.






End aggregation.

(** C4: [filterByCountry] returns exactly the rows of the table whose
    [country_id] is the given code, in the order of the table; the option
    list is made of the distinct pairs of indicator id and label of those rows,
    in ascending order of the id; and when the table comes from [load_data]
    with a metadata that has one row per indicator id, no id is offered
    twice. *)
Theorem filterByCountry_indicator_options {O M}
    (t : list (row O M)) (country_code : string) :
  (filterByCountry t country_code `sublist_of` t
   ∧ (∀ r, r ∈ filterByCountry t country_code
           ↔ r ∈ t ∧ country_id r = Some country_code)
   ∧ filterByCountry t country_code
       ++ filter (λ r, country_id r ≠ Some country_code) t ≡ₚ t)
  ∧ ((∀ p, p ∈ unique_indicators t country_code
           ↔ ∃ r, r ∈ t ∧ country_id r = Some country_code
                  ∧ p = (INDICATOR_ID r, INDICATOR_LABEL_EN r))
     ∧ NoDup (unique_indicators t country_code)
     ∧ indicator_options t country_code = (unique_indicators t country_code).*1
     ∧ StronglySorted cell_le (indicator_options t country_code))
  ∧ (∀ (na : M) data metadata,
       t = load_data na data metadata →
       NoDup (m_INDICATOR_ID <$> metadata) →
       NoDup (indicator_options t country_code)).
Proof.
  split; [|split].
  - split; [apply sublist_filter|]. split; [apply elem_of_filterByCountry|].
    apply (filter_app_complement (λ r, country_id r = Some country_code)).
  - split; [apply elem_of_unique_indicators|].
    split; [apply unique_indicators_NoDup|].
    split; [done|apply indicator_options_sorted].
  - intros na data metadata -> Hu. apply indicator_options_NoDup.
    intros r1 r2. rewrite load_data_merge_left.
    now apply merge_left_label_unique.
Qed.

Lemma filterByCountry_indicator_options_witness :
  let data := [RawRow (Some "NPL") (Some "xgdp.fsgov") None 2010%Z 4%float ();
               RawRow (Some "NPL") (Some " ner.02.cp") None 2010%Z 1%float ();
               RawRow (Some "NPL") (Some "NER.02.CP") None 2011%Z 2%float ();
               RawRow (Some "USA") (Some "ROFST.H.3") None 2011%Z 3%float ()] in
  let metadata := [MetaRow (Some "NER.02.CP") (Some "Net enrolment rate") ();
                   MetaRow (Some "XGDP.FSGOV") (Some "Expenditure") ()] in
  indicator_options (load_data () data metadata) "NPL"
  = [Some "NER.02.CP"; Some "XGDP.FSGOV"]
  ∧ NoDup (indicator_options (load_data () data metadata) "NPL").
Proof.
  cbv zeta. split; [reflexivity|].
  eapply (proj2 (proj2 (filterByCountry_indicator_options _ "NPL"))).
  - reflexivity.
  - apply NoDup_cons. split; [|apply NoDup_singleton].
    intros [=]%list_elem_of_singleton.
Defined.


(** The test of the specification for the indicator query: the id is matched
    after normalisation, and the two rows that differ only by the sign of a
    zero are one row. *)
Example filterByIndicator_NER :
  let data := [RawRow (Some "NPL") (Some " ner.02.cp") None 2010%Z 0%float ();
               RawRow (Some "USA") (Some "XGDP.FSGOV") None 2010%Z 4%float ();
               RawRow (Some "NPL") (Some "NER.02.CP ") None 2010%Z (-0)%float ();
               RawRow (Some "EST") (Some "NER.02.CP") None 2011%Z 7%float ()] in
  let metadata := [MetaRow (Some "NER.02.CP") (Some "Net enrolment rate") ()] in
  filterByIndicator (load_data () data metadata) "NER.02.CP"
  = [Row (Some "NPL") (Some "NER.02.CP") 2010%Z 0%float ()
         (Some "Net enrolment rate") ();
     Row (Some "EST") (Some "NER.02.CP") 2011%Z 7%float ()
         (Some "Net enrolment rate") ()].
Proof. reflexivity. Qed.

(** Kahan's compensation is part of the mean: on 0.1, 0.2 and 0.3 it gives
    the float below 0.2, where adding from the left gives the float above
    it. *)
Example group_mean_compensated :
  let vals := [0x1.999999999999ap-4; 0x1.999999999999ap-3;
               0x1.3333333333333p-2]%float in
  group_mean vals = 0x1.9999999999999p-3%float
  ∧ naive_mean vals = 0x1.999999999999bp-3%float.
Proof. split; reflexivity. Qed.


(** The mean of the specification's example, and a mean with a missing
    value, as instances of the law for integers. *)
Example group_mean_integers_10_20 :
  group_mean (float_of_Z <$> [10; 20]%Z) = float_of_Z 15
  ∧ group_mean [float_of_Z 7; nan; float_of_Z (-3); float_of_Z 2]
    = float_of_Z 2.
Proof.
  split.
  - apply (ExactFacts.group_mean_Z_exact [10; 20]%Z 15); done.
  - rewrite (ExactFacts.group_mean_integers _ [7; -3; 2]%Z) by done.
    apply (ExactFacts.float_of_Z_div 2 3); done.
Qed.

(** ** Runs of the script *)

Section runs.
Context {O M : Type} `{!EqDecision O, !EqDecision M}.
Variable na : M.
Local Abbreviation world := (world (O := O) (M := M)).
Local Abbreviation App := (App (O := O) (M := M)).
Local Abbreviation frame := (frame (O := O) (M := M)).
Implicit Types (w : world) (l df : loc) (f : frame) (t : list (row O M)).

Lemma returns_inv {A} (m : App A) w Q :
  returns m w Q ↔ ∃ a w', m w = inr (a, w') ∧ Q a w'.
Proof.
  unfold returns. destruct (m w) as [e|[a w']]; split.
  - done.
  - intros (? & ? & [=] & _).
  - eauto.
  - now intros (? & ? & [= <- <-] & ?).
Qed.

Lemma returns_ret {A} (a : A) w (Q : A → world → Prop) :
  Q a w → returns (mret a) w Q.
Proof. done. Qed.

Lemma returns_bind {A B} (m : App A) (k : A → App B) w Q :
  returns m w (λ a w', returns (k a) w' Q) → returns (m ≫= k) w Q.
Proof.
  unfold returns, mbind, App_bind. now destruct (m w) as [e|[a w']].
Qed.

Lemma returns_mono {A} (m : App A) w (Q Q' : A → world → Prop) :
  returns m w Q → (∀ a w', Q a w' → Q' a w') → returns m w Q'.
Proof. unfold returns. destruct (m w) as [e|[a w']]; auto. Qed.

Lemma extends_refl w : extends w [] w.
Proof. unfold extends. now rewrite app_nil_r. Qed.

Lemma extends_trans w1 w2 w3 es es' :
  extends w1 es w2 → extends w2 es' w3 → extends w1 (es ++ es') w3.
Proof.
  intros (S1 & C1 & R1 & H1) (S2 & C2 & R2 & H2). unfold extends.
  rewrite S2, C2, R2, R1, app_assoc. repeat split; try done. by etrans.
Qed.

Lemma extends_lookup w es w' l f :
  extends w es w' → heap w !! l = Some f → heap w' !! l = Some f.
Proof. intros (_ & _ & _ & H) Hl. eapply lookup_weaken; eauto. Qed.

Lemma extends_page w es w' : extends w es w' → page_of w' = page_of w.
Proof. intros (S & _). unfold page_of. now rewrite S. Qed.

(** *** The primitives *)

Lemma returns_emit e w (Q : () → world → Prop) :
  (∀ w', extends w [e] w' → Q () w') → returns (emit e) w Q.
Proof. intros H. apply H. done. Qed.

Lemma returns_new_frame f w (Q : loc → world → Prop) :
  (∀ l w', extends w [] w' → heap w' !! l = Some f → Q l w') →
  returns (new_frame f) w Q.
Proof.
  intros H. apply H; simpl.
  - unfold extends; simpl. rewrite app_nil_r. repeat split.
    apply insert_subseteq, not_elem_of_dom, is_fresh.
  - apply lookup_insert_eq.
Qed.

Lemma returns_read_frame l f w (Q : frame → world → Prop) :
  heap w !! l = Some f → Q f w → returns (read_frame l) w Q.
Proof. intros Hl HQ. unfold returns, read_frame. now rewrite Hl. Qed.

Lemma returns_DataFrame_rows l t w (Q : list (row O M) → world → Prop) :
  heap w !! l = Some (DataFrame t) → Q t w → returns (DataFrame_rows l) w Q.
Proof.
  intros Hl HQ. apply returns_bind, (returns_read_frame _ _ _ _ Hl). done.
Qed.

Lemma returns_IndicatorFrame_rows l rows w
    (Q : list indicator → world → Prop) :
  heap w !! l = Some (IndicatorFrame rows) → Q rows w →
  returns (IndicatorFrame_rows l) w Q.
Proof.
  intros Hl HQ. apply returns_bind, (returns_read_frame _ _ _ _ Hl). done.
Qed.

Lemma returns_df_where (P : row O M → Prop) `{!∀ r, Decision (P r)}
    df t w (Q : loc → world → Prop) :
  heap w !! df = Some (DataFrame t) →
  (∀ l w', extends w [] w' → heap w' !! l = Some (DataFrame (filter P t)) →
           Q l w') →
  returns (df_where P df) w Q.
Proof.
  intros Hl HQ. apply returns_bind, (returns_DataFrame_rows _ _ _ _ Hl).
  now apply returns_new_frame.
Qed.

Lemma returns_df_drop_duplicates df t w (Q : loc → world → Prop) :
  heap w !! df = Some (DataFrame t) →
  (∀ l w', extends w [] w' →
           heap w' !! l = Some (DataFrame (drop_duplicates row_eqb t)) →
           Q l w') →
  returns (df_drop_duplicates df) w Q.
Proof.
  intros Hl HQ. apply returns_bind, (returns_DataFrame_rows _ _ _ _ Hl).
  now apply returns_new_frame.
Qed.

Lemma returns_df_id_and_label df t w (Q : loc → world → Prop) :
  heap w !! df = Some (DataFrame t) →
  (∀ l w', extends w [] w' →
           heap w' !! l = Some (IndicatorFrame (id_and_label <$> t)) →
           Q l w') →
  returns (df_id_and_label df) w Q.
Proof.
  intros Hl HQ. apply returns_bind, (returns_DataFrame_rows _ _ _ _ Hl).
  now apply returns_new_frame.
Qed.

Lemma returns_ind_drop_duplicates df rows w (Q : loc → world → Prop) :
  heap w !! df = Some (IndicatorFrame rows) →
  (∀ l w', extends w [] w' →
           heap w' !! l
           = Some (IndicatorFrame
                     (drop_duplicates (λ p q, bool_decide (p = q)) rows)) →
           Q l w') →
  returns (ind_drop_duplicates df) w Q.
Proof.
  intros Hl HQ. apply returns_bind, (returns_IndicatorFrame_rows _ _ _ _ Hl).
  now apply returns_new_frame.
Qed.

Lemma returns_ind_sort_values df rows w (Q : loc → world → Prop) :
  heap w !! df = Some (IndicatorFrame rows) →
  (∀ l w', extends w [] w' →
           heap w' !! l = Some (IndicatorFrame (sort_values rows)) →
           Q l w') →
  returns (ind_sort_values df) w Q.
Proof.
  intros Hl HQ. apply returns_bind, (returns_IndicatorFrame_rows _ _ _ _ Hl).
  now apply returns_new_frame.
Qed.

Lemma returns_ind_tolist df rows w (Q : list (option string) → world → Prop) :
  heap w !! df = Some (IndicatorFrame rows) → Q rows.*1 w →
  returns (ind_tolist df) w Q.
Proof.
  intros Hl HQ. apply returns_bind, (returns_IndicatorFrame_rows _ _ _ _ Hl).
  done.
Qed.

Lemma returns_df_groupby_mean df t w (Q : loc → world → Prop) :
  heap w !! df = Some (DataFrame t) →
  (∀ l w', extends w [] w' →
           heap w' !! l = Some (MeanFrame (groupby_year_country_mean t)) →
           Q l w') →
  returns (df_groupby_mean df) w Q.
Proof.
  intros Hl HQ. apply returns_bind, (returns_DataFrame_rows _ _ _ _ Hl).
  now apply returns_new_frame.
Qed.

Lemma returns_px c df color f w (Q : figure → world → Prop) :
  heap w !! df = Some f → Q (Figure c f color) w →
  returns (px c df color) w Q.
Proof.
  intros Hl HQ. apply returns_bind, (returns_read_frame _ _ _ _ Hl). done.
Qed.

(** A computation that raises after a computation that returns *)
Lemma raises_bind {A B} (m : App A) (k : A → App B) w (e : exn) :
  returns m w (λ a w', k a w' = inl e) → (m ≫= k) w = inl e.
Proof.
  unfold returns, mbind, App_bind. now destruct (m w) as [e'|[a w']].
Qed.

Lemma raises_now {A B} (m : App A) (k : A → App B) w (e : exn) :
  m w = inl e → (m ≫= k) w = inl e.
Proof. unfold mbind, App_bind. now intros ->. Qed.

Lemma outcome_returns {A} (m : App A) w E (Q : A → world → Prop) :
  returns m w Q → outcome m w E Q.
Proof. unfold returns, outcome. now destruct (m w) as [e|[a w']]. Qed.

Lemma outcome_raises {A} (m : App A) w (e : exn) (E : exn → Prop)
    (Q : A → world → Prop) :
  m w = inl e → E e → outcome m w E Q.
Proof. unfold outcome. now intros ->. Qed.

Lemma outcome_bind {A B} (m : App A) (k : A → App B) w E
    (Q : B → world → Prop) :
  returns m w (λ a w', outcome (k a) w' E Q) → outcome (m ≫= k) w E Q.
Proof.
  unfold returns, outcome, mbind, App_bind. now destruct (m w) as [e|[a w']].
Qed.

Lemma outcome_mono {A} (m : App A) w (E E' : exn → Prop)
    (Q Q' : A → world → Prop) :
  outcome m w E Q → (∀ e, E e → E' e) → (∀ a w', Q a w' → Q' a w') →
  outcome m w E' Q'.
Proof. unfold outcome. destruct (m w) as [e|[a w']]; auto. Qed.


Lemma returns_format_indicator_of l rows ind text w
    (Q : string → world → Prop) :
  heap w !! l = Some (IndicatorFrame rows) →
  format_indicator rows ind = Some text → Q text w →
  returns (format_indicator_of l ind) w Q.
Proof.
  intros Hl Hf HQ. unfold format_indicator_of.
  apply returns_bind, (returns_IndicatorFrame_rows _ _ _ _ Hl).
  now rewrite Hf.
Qed.

(** The labels of the options: each option that is an id of the frame has
    one. *)
Lemma returns_format_options l rows options w
    (Q : list string → world → Prop) :
  heap w !! l = Some (IndicatorFrame rows) →
  Forall (λ o, is_Some (format_indicator rows o)) options →
  (∀ labels, Q labels w) →
  returns (mapM (format_indicator_of l) options) w Q.
Proof.
  intros Hl Hf. revert Q.
  induction Hf as [|o options [text Ho] _ IH]; intros Q HQ; simpl.
  - apply returns_ret, HQ.
  - apply returns_bind, (returns_format_indicator_of _ _ _ _ _ _ Hl Ho).
    apply returns_bind, IH. intros labels. apply returns_ret, HQ.
Qed.

(** An option without label: [st.multiselect] raises what [.iloc[0]]
    raises. *)
Lemma format_options_raises l rows options w :
  heap w !! l = Some (IndicatorFrame rows) →
  Exists (λ o, format_indicator rows o = None) options →
  mapM (format_indicator_of l) options w = inl IndexError.
Proof.
  intros Hl. induction options as [|o options IH]; intros Hex; simpl.
  - inversion Hex.
  - destruct (format_indicator rows o) as [text|] eqn:Ho.
    + apply raises_bind, (returns_format_indicator_of _ _ _ _ _ _ Hl Ho).
      apply raises_now, IH. inversion Hex as [?? Hn|]; [congruence|done].
    + apply raises_now. unfold format_indicator_of.
      apply raises_bind, (returns_IndicatorFrame_rows _ _ _ _ Hl).
      now rewrite Ho.
Qed.

Lemma returns_st_multiselect ui label options l rows w
    (Q : list (option string) → world → Prop) :
  heap w !! l = Some (IndicatorFrame rows) →
  Forall (λ o, is_Some (format_indicator rows o)) options →
  (∀ w', extends w [Multiselect label options] w' →
         Q (multiselect_value ui) w') →
  returns (st_multiselect ui label options (format_indicator_of l)) w Q.
Proof.
  intros Hl Hf H. unfold st_multiselect.
  apply returns_bind, (returns_format_options _ _ _ _ _ Hl Hf). intros _.
  apply returns_bind, returns_emit. intros w' Hw. now apply H.
Qed.

Lemma st_multiselect_raises ui label options l rows w :
  heap w !! l = Some (IndicatorFrame rows) →
  Exists (λ o, format_indicator rows o = None) options →
  st_multiselect ui label options (format_indicator_of l) w = inl IndexError.
Proof.
  intros Hl Hex. apply raises_now. now apply (format_options_raises _ rows).
Qed.

Lemma returns_st_selectbox ui label options w
    (Q : option string → world → Prop) :
  (∀ w', extends w [Selectbox label options] w' →
         Q (selectbox_choice options (selectbox_value ui)) w') →
  returns (st_selectbox ui label options) w Q.
Proof. intros H. apply returns_bind, returns_emit. intros w' Hw. now apply H. Qed.

Lemma returns_st_plotly_chart shown fig w (Q : () → world → Prop) :
  existsb (same_figure fig) shown = false →
  (∀ w', extends w [PlotlyChart fig] w' → Q () w') →
  returns (st_plotly_chart shown fig) w Q.
Proof.
  intros Hs H. unfold st_plotly_chart. rewrite Hs. now apply returns_emit.
Qed.

End runs.

(** ** The pages *)

Section pages.
Context {O M : Type} `{!EqDecision O, !EqDecision M}.
Local Abbreviation world := (world (O := O) (M := M)).
Local Abbreviation App := (App (O := O) (M := M)).
Local Abbreviation frame := (frame (O := O) (M := M)).
Local Abbreviation figure := (figure (O := O) (M := M)).
Implicit Types (w : world) (l label_data : loc) (t : list (row O M)).
Implicit Types (ui : widgets).

(** *** The labels of the options *)

Lemma format_indicator_nan (rows : list indicator) :
  format_indicator rows None = None.
Proof.
  unfold format_indicator.
  replace (filter _ rows) with (@nil indicator); [done|].
  induction rows as [|p rows IH]; [done|].
  rewrite filter_cons, decide_False; [done|]. intros [[? [=]] _].
Qed.

Lemma format_indicator_id (rows : list indicator) (s : string) :
  Some s ∈ rows.*1 → is_Some (format_indicator rows (Some s)).
Proof.
  intros ([i label] & Hi & Hp)%list_elem_of_fmap. simpl in Hi. subst i.
  unfold format_indicator.
  destruct (filter _ rows) as [|q l] eqn:E; [|eauto].
  assert (H : (Some s, label)
              ∈ filter (λ p : indicator, is_Some (Some s) ∧ p.1 = Some s) rows)
    by (apply list_elem_of_filter; eauto).
  rewrite E in H. inversion H.
Qed.

(** The rows of the country all have an id exactly when no option is NaN,
    and then every option has a label. *)
Lemma indicator_options_ids t c :
  ids_present (filterByCountry t c) ↔ Forall is_Some (indicator_options t c).
Proof.
  unfold ids_present, indicator_options. rewrite !Forall_forall. split.
  - intros H o ([i label] & -> & Hp)%list_elem_of_fmap.
    apply elem_of_unique_indicators in Hp as (r & Hr & Hc & [= -> ->]).
    apply H. now apply elem_of_filterByCountry.
  - intros H r [Hr Hc]%elem_of_filterByCountry. apply H.
    apply list_elem_of_fmap. exists (INDICATOR_ID r, INDICATOR_LABEL_EN r).
    split; [done|]. apply elem_of_unique_indicators. eauto.
Qed.

Lemma format_indicator_present t c :
  ids_present (filterByCountry t c) →
  Forall (λ o, is_Some (format_indicator (unique_indicators t c) o))
    (indicator_options t c).
Proof.
  intros H%indicator_options_ids. rewrite Forall_forall in *.
  intros o Ho. destruct (H o Ho) as [s ->]. now apply format_indicator_id.
Qed.

Lemma format_indicator_missing t c :
  ¬ ids_present (filterByCountry t c) →
  Exists (λ o, format_indicator (unique_indicators t c) o = None)
    (indicator_options t c).
Proof.
  rewrite indicator_options_ids. intros H%not_Forall_Exists; [|apply _].
  eapply Exists_impl; [exact H|]. intros [s|] Hs; simpl in Hs.
  - destruct Hs. eauto.
  - apply format_indicator_nan.
Qed.

(** *** The identity of the charts *)

Lemma has_traces_country_id (c : chart) (df : list (row O M)) :
  has_traces (Figure c (DataFrame df) "country_id")
  = bool_decide (has_country df).
Proof.
  unfold has_traces, has_country. simpl. apply bool_decide_ext.
  now rewrite Exists_fmap.
Qed.

(** The area chart and the line chart of a frame are one figure exactly
    when they have no trace: when no row has a country. *)
Lemma same_figure_area_line (df : list (row O M)) :
  same_figure (Figure AreaChart (DataFrame df) "country_id")
              (Figure LineChart (DataFrame df) "country_id")
  = negb (bool_decide (has_country df)).
Proof.
  unfold same_figure. rewrite !has_traces_country_id.
  destruct (bool_decide (has_country df)); cbn [orb negb].
  - now apply bool_decide_eq_false_2.
  - apply bool_decide_eq_true_2. by split.
Qed.

(** A bar chart is never the figure of a chart of another kind. *)
Lemma same_figure_bar (c : chart) (f g : frame) (color color' : string) :
  c ≠ BarChart →
  same_figure (Figure BarChart f color) (Figure c g color') = false.
Proof.
  intros Hc. unfold same_figure.
  destruct (has_traces _ || has_traces _); apply bool_decide_eq_false_2.
  - intros [= ? ? ?]. by subst c.
  - simpl. intros [[H _] _]. destruct Hc. by apply H.
Qed.

(** *** The page of a country *)

(** The query of lines 91 to 95 on the table [t]: it makes the frame of the
    rows of the country and the frame of its options, and emits nothing. *)
Lemma returns_country_query label_data country_code t w
    (Q : loc * loc * list (option string) → world → Prop) :
  heap w !! label_data = Some (DataFrame t) →
  (∀ df unique w',
     extends w [] w' →
     heap w' !! df = Some (DataFrame (filterByCountry t country_code)) →
     heap w' !! unique
     = Some (IndicatorFrame (unique_indicators t country_code)) →
     Q (df, unique, indicator_options t country_code) w') →
  returns (country_query label_data country_code) w Q.
Proof.
  intros Hl HQ. unfold country_query.
  apply returns_bind, (returns_df_where _ _ _ _ _ Hl). intros df w1 E1 L1.
  apply returns_bind, returns_bind, (returns_df_id_and_label _ _ _ _ L1).
  intros cols w2 E2 L2.
  apply returns_bind, (returns_ind_drop_duplicates _ _ _ _ L2).
  intros distinct w3 E3 L3.
  apply (returns_ind_sort_values _ _ _ _ L3). intros uniq w4 E4 L4.
  apply returns_bind, (returns_ind_tolist _ _ _ _ L4). apply returns_ret.
  pose proof (extends_trans _ _ _ _ _ E1
                (extends_trans _ _ _ _ _ E2
                   (extends_trans _ _ _ _ _ E3 E4))) as E.
  apply HQ; [exact E| |exact L4].
  eapply extends_lookup; [exact E4|]. eapply extends_lookup; [exact E3|].
  eapply extends_lookup; [exact E2|]. exact L1.
Qed.

(** What [create_line_chart_with_selection] does on the table [t] when
    every row of the country has an indicator id: it offers
    [indicator_options t country_code], and returns the line chart of the
    selected indicators of the country, or warns and returns [None] when
    nothing is selected. *)
Lemma returns_create_line_chart ui label_data country_code t w
    (Q : option figure → world → Prop) :
  heap w !! label_data = Some (DataFrame t) →
  ids_present (filterByCountry t country_code) →
  (∀ w',
     extends w
       (Multiselect "Select Indicator(s) to Display"
          (indicator_options t country_code)
        :: match multiselect_value ui with
           | [] => [Warning "Please select at least one indicator."]
           | _ => []
           end) w' →
     Q match multiselect_value ui with
       | [] => None
       | selected =>
           Some (Figure LineChart
                   (DataFrame (isin_INDICATOR_ID selected
                                 (filterByCountry t country_code)))
                   "INDICATOR_ID")
       end w') →
  returns (create_line_chart_with_selection ui label_data country_code) w Q.
Proof.
  intros Hl Hids HQ. unfold create_line_chart_with_selection.
  apply returns_bind, (returns_country_query _ _ _ _ _ Hl).
  intros df uniq w1 E1 L1 U1.
  apply returns_bind, (returns_st_multiselect _ _ _ _ _ _ _ U1);
    [now apply format_indicator_present|].
  intros w2 E2. pose proof (extends_trans _ _ _ _ _ E1 E2) as E.
  simpl in E.
  destruct (multiselect_value ui) as [|s sel] eqn:Hsel.
  - apply returns_bind, returns_emit. intros w3 E3. apply returns_ret.
    apply HQ. apply (extends_trans _ _ _ _ _ E E3).
  - assert (L2 : heap w2 !! df
                 = Some (DataFrame (filterByCountry t country_code)))
      by (eapply extends_lookup; [exact E2|exact L1]).
    apply returns_bind, (returns_df_where _ _ _ _ _ L2).
    intros filtered w3 E3 L3.
    apply returns_bind, (returns_px _ _ _ _ _ _ L3). apply returns_ret.
    apply HQ. pose proof (extends_trans _ _ _ _ _ E E3) as E'.
    now rewrite app_nil_r in E'.
Qed.

(** When a row of the country has no indicator id, NaN is an option, it has
    no label, and the call raises whatever is selected. *)
Lemma create_line_chart_raises ui label_data country_code t w :
  heap w !! label_data = Some (DataFrame t) →
  ¬ ids_present (filterByCountry t country_code) →
  create_line_chart_with_selection ui label_data country_code w
  = inl IndexError.
Proof.
  intros Hl Hids. unfold create_line_chart_with_selection.
  apply raises_bind, (returns_country_query _ _ _ _ _ Hl).
  intros df uniq w1 E1 L1 U1.
  apply raises_now, (st_multiselect_raises _ _ _ _ _ _ U1).
  now apply format_indicator_missing.
Qed.

Lemma returns_show_country ui label_data title country_code t w
    (Q : () → world → Prop) :
  heap w !! label_data = Some (DataFrame t) →
  ids_present (filterByCountry t country_code) →
  (∀ w',
     extends w
       (Title title
        :: Multiselect "Select Indicator(s) to Display"
             (indicator_options t country_code)
        :: match multiselect_value ui with
           | [] => [Warning "Please select at least one indicator."]
           | selected =>
               [PlotlyChart
                  (Figure LineChart
                     (DataFrame (isin_INDICATOR_ID selected
                                   (filterByCountry t country_code)))
                     "INDICATOR_ID")]
           end) w' →
     Q () w') →
  returns (show_country ui label_data title country_code) w Q.
Proof.
  intros Hl Hids HQ. unfold show_country.
  apply returns_bind, returns_emit. intros w1 E1.
  apply returns_bind.
  apply (returns_create_line_chart _ _ _ t);
    [eapply extends_lookup; [exact E1|exact Hl]|done|].
  intros w2 E2. pose proof (extends_trans _ _ _ _ _ E1 E2) as E. simpl in E.
  destruct (multiselect_value ui) as [|s sel].
  - apply returns_ret, HQ, E.
  - apply returns_st_plotly_chart; [done|]. intros w3 E3. apply HQ.
    apply (extends_trans _ _ _ _ _ E E3).
Qed.

Lemma show_country_raises ui label_data title country_code t w :
  heap w !! label_data = Some (DataFrame t) →
  ¬ ids_present (filterByCountry t country_code) →
  show_country ui label_data title country_code w = inl IndexError.
Proof.
  intros Hl Hids. unfold show_country.
  apply raises_bind, returns_emit. intros w1 E1.
  apply raises_now, (create_line_chart_raises _ _ _ t); [|done].
  eapply extends_lookup; [exact E1|exact Hl].
Qed.

(** *** The page of the indicators *)

Lemma selectbox_choice_indicators ui :
  selectbox_choice indicators.*1 (selectbox_value ui)
  = Some (selected_indicator ui).
Proof.
  unfold selected_indicator, selectbox_choice.
  now destruct (bool_decide (selectbox_value ui ∈ indicators.*1)).
Qed.

Lemma selected_indicator_option ui : selected_indicator ui ∈ indicators.*1.
Proof.
  unfold selected_indicator, selectbox_choice. case_bool_decide; [done|].
  in_list.
Qed.


Lemma selected_indicator_description ui :
  is_Some ((list_to_map indicators : gmap string string)
             !! selected_indicator ui).
Proof.
  destruct (list_to_map indicators !! selected_indicator ui) eqn:E; [eauto|].
  apply not_elem_of_list_to_map in E.
  destruct E. apply selected_indicator_option.
Qed.

(** The query of line 209 on the table [t] *)
Lemma returns_indicator_query label_data selected t w
    (Q : loc → world → Prop) :
  heap w !! label_data = Some (DataFrame t) →
  (∀ df w',
     extends w [] w' →
     heap w' !! df = Some (DataFrame (filterByIndicator t selected)) →
     Q df w') →
  returns (indicator_query label_data selected) w Q.
Proof.
  intros Hl HQ. unfold indicator_query.
  apply returns_bind, (returns_df_where _ _ _ _ _ Hl).
  intros matching w1 E1 L1.
  apply (returns_df_drop_duplicates _ _ _ _ L1). intros df w2 E2 L2.
  apply HQ; [|exact L2]. apply (extends_trans _ _ _ _ _ E1 E2).
Qed.

(** What [show_cross] does on the table [t] when a row of the indicator has
    a country: the three charts are those of [filterByIndicator t], the bar
    chart that of its aggregation. *)
Lemma returns_show_cross ui label_data t w (Q : () → world → Prop) :
  heap w !! label_data = Some (DataFrame t) →
  has_country (filterByIndicator t (selected_indicator ui)) →
  (∀ w' description,
     let df := filterByIndicator t (selected_indicator ui) in
     (list_to_map indicators : gmap string string) !! selected_indicator ui
     = Some description →
     extends w
       [Title "Cross-country Analysis";
        Selectbox "Select an Indicator" indicators.*1;
        Written ("Displaying cross-country analysis for: **"
                 +:+ description +:+ "**");
        Markdown "<br><br>";
        Tabs ["Line Chart"; "Area Chart"; "Bar Chart"];
        PlotlyChart (Figure LineChart (DataFrame df) "country_id");
        PlotlyChart (Figure AreaChart (DataFrame df) "country_id");
        PlotlyChart (Figure BarChart
                       (MeanFrame (groupby_year_country_mean df))
                       "country_id")] w' →
     Q () w') →
  returns (show_cross ui label_data) w Q.
Proof.
  intros Hl Hc HQ. unfold show_cross.
  apply returns_bind, returns_emit. intros w1 E1.
  apply returns_bind, returns_st_selectbox. intros w2 E2.
  rewrite selectbox_choice_indicators. unfold show_cross_of.
  destruct (selected_indicator_description ui) as [description Hd].
  apply returns_bind. unfold getitem. rewrite Hd. apply returns_ret.
  apply returns_bind, returns_emit. intros w3 E3.
  apply returns_bind, returns_emit. intros w4 E4.
  pose proof (extends_trans _ _ _ _ _ E1
                (extends_trans _ _ _ _ _ E2
                   (extends_trans _ _ _ _ _ E3 E4))) as E.
  apply returns_bind.
  apply (returns_indicator_query _ _ t);
    [eapply extends_lookup; [exact E|exact Hl]|].
  intros df w5 E5 L5.
  apply returns_bind, returns_emit. intros w6 E6.
  assert (L6 : heap w6 !! df
               = Some (DataFrame (filterByIndicator t (selected_indicator ui))))
    by (eapply extends_lookup; [exact E6|exact L5]).
  apply returns_bind, (returns_px _ _ _ _ _ _ L6).
  apply returns_bind, returns_st_plotly_chart; [done|]. intros w7 E7.
  assert (L7 : heap w7 !! df
               = Some (DataFrame (filterByIndicator t (selected_indicator ui))))
    by (eapply extends_lookup; [exact E7|exact L6]).
  apply returns_bind, (returns_px _ _ _ _ _ _ L7).
  apply returns_bind, returns_st_plotly_chart.
  { cbn [existsb]. rewrite same_figure_area_line.
    now rewrite bool_decide_eq_true_2. }
  intros w8 E8.
  assert (L8 : heap w8 !! df
               = Some (DataFrame (filterByIndicator t (selected_indicator ui))))
    by (eapply extends_lookup; [exact E8|exact L7]).
  apply returns_bind, (returns_df_groupby_mean _ _ _ _ L8).
  intros df_bar w9 E9 L9.
  apply returns_bind, (returns_px _ _ _ _ _ _ L9).
  apply returns_st_plotly_chart.
  { cbn [existsb]. now rewrite !same_figure_bar. }
  intros w10 E10. apply (HQ _ description Hd).
  pose proof (extends_trans _ _ _ _ _ E
                (extends_trans _ _ _ _ _ E5
                   (extends_trans _ _ _ _ _ E6
                      (extends_trans _ _ _ _ _ E7
                         (extends_trans _ _ _ _ _ E8
                            (extends_trans _ _ _ _ _ E9 E10)))))) as E'.
  exact E'.
Qed.

(** When no row of the indicator has a country, the area chart is the
    figure of the line chart and Streamlit refuses it. *)
Lemma show_cross_raises ui label_data t w :
  heap w !! label_data = Some (DataFrame t) →
  ¬ has_country (filterByIndicator t (selected_indicator ui)) →
  show_cross ui label_data w = inl StreamlitDuplicateElementId.
Proof.
  intros Hl Hc. unfold show_cross.
  apply raises_bind, returns_emit. intros w1 E1.
  apply raises_bind, returns_st_selectbox. intros w2 E2.
  rewrite selectbox_choice_indicators. unfold show_cross_of.
  destruct (selected_indicator_description ui) as [description Hd].
  apply raises_bind. unfold getitem. rewrite Hd. apply returns_ret.
  apply raises_bind, returns_emit. intros w3 E3.
  apply raises_bind, returns_emit. intros w4 E4.
  pose proof (extends_trans _ _ _ _ _ E1
                (extends_trans _ _ _ _ _ E2
                   (extends_trans _ _ _ _ _ E3 E4))) as E.
  apply raises_bind.
  apply (returns_indicator_query _ _ t);
    [eapply extends_lookup; [exact E|exact Hl]|].
  intros df w5 E5 L5.
  apply raises_bind, returns_emit. intros w6 E6.
  assert (L6 : heap w6 !! df
               = Some (DataFrame (filterByIndicator t (selected_indicator ui))))
    by (eapply extends_lookup; [exact E6|exact L5]).
  apply raises_bind, (returns_px _ _ _ _ _ _ L6).
  apply raises_bind, returns_st_plotly_chart; [done|]. intros w7 E7.
  assert (L7 : heap w7 !! df
               = Some (DataFrame (filterByIndicator t (selected_indicator ui))))
    by (eapply extends_lookup; [exact E7|exact L6]).
  apply raises_bind, (returns_px _ _ _ _ _ _ L7).
  apply raises_now. unfold st_plotly_chart. cbn [existsb].
  rewrite same_figure_area_line. now rewrite bool_decide_eq_false_2.
Qed.

End pages.

(** ** Navigation *)

Section navigation.
Context {O M : Type} `{!EqDecision O, !EqDecision M}.
Local Abbreviation world := (world (O := O) (M := M)).
Local Abbreviation App := (App (O := O) (M := M)).
Implicit Types (w : world) (l label_data : loc) (t : list (row O M)).
Implicit Types (ui : widgets) (p : string).

Lemma keeps_data_refl w : keeps_data w w.
Proof. done. Qed.

Lemma keeps_data_trans w1 w2 w3 :
  keeps_data w1 w2 → keeps_data w2 w3 → keeps_data w1 w3.
Proof.
  intros [C1 H1] [C2 H2]. split; [congruence|by etrans].
Qed.

Lemma extends_keeps_data w es w' : extends w es w' → keeps_data w w'.
Proof. now intros (_ & ? & _ & ?). Qed.

Lemma keeps_data_lookup w w' l f :
  keeps_data w w' → heap w !! l = Some f → heap w' !! l = Some f.
Proof. intros [_ H] Hl. eapply lookup_weaken; eauto. Qed.

Lemma returns_get_page p w (Q : string → world → Prop) :
  page_of w = Some p → Q p w → returns get_page w Q.
Proof. unfold page_of, returns, get_page. now intros ->. Qed.

Lemma returns_page_is p q w (Q : bool → world → Prop) :
  page_of w = Some p → Q (bool_decide (p = q)) w → returns (page_is q) w Q.
Proof.
  intros Hp HQ. apply returns_bind, (returns_get_page p); [done|]. done.
Qed.

Lemma returns_set_page p w (Q : () → world → Prop) :
  (∀ w', keeps_data w w' → page_of w' = Some p → Q () w') →
  returns (set_page p) w Q.
Proof.
  intros H. apply H; [done|]. unfold page_of; simpl. apply lookup_insert_eq.
Qed.

Lemma returns_button ui label w (Q : bool → world → Prop) :
  (∀ w', extends w [Button label] w' →
         Q (bool_decide (clicked ui = Some label)) w') →
  returns (st_button ui label) w Q.
Proof. intros H. apply returns_bind, returns_emit. intros w' E. now apply H. Qed.

Lemma returns_sidebar_button ui label w (Q : bool → world → Prop) :
  (∀ w', extends w [SidebarButton label] w' →
         Q (bool_decide (clicked ui = Some label)) w') →
  returns (st_sidebar_button ui label) w Q.
Proof. intros H. apply returns_bind, returns_emit. intros w' E. now apply H. Qed.

(** A button whose handler is [goto target]: afterwards the page is the
    target when the button was clicked and the page before otherwise. *)
Lemma returns_goto_button ui label target p w (Q : () → world → Prop) :
  page_of w = Some p →
  (∀ w', keeps_data w w' →
         page_of w'
         = Some (if bool_decide (clicked ui = Some label) then target else p) →
         Q () w') →
  returns (b ← st_button ui label;
           if b : bool then set_page target else mret ()) w Q.
Proof.
  intros Hp HQ. apply returns_bind, returns_button. intros w1 E1.
  destruct (bool_decide (clicked ui = Some label)).
  - apply returns_set_page. intros w2 K2 P2. apply HQ; [|done].
    eapply keeps_data_trans; [|exact K2]. eapply extends_keeps_data, E1.
  - apply returns_ret, HQ; [eapply extends_keeps_data, E1|].
    now rewrite (extends_page _ _ _ E1).
Qed.

Lemma returns_goto_button_then {A} ui label target p w (k : App A)
    (Q : A → world → Prop) :
  page_of w = Some p →
  (∀ w', keeps_data w w' →
         page_of w'
         = Some (if bool_decide (clicked ui = Some label) then target else p) →
         returns k w' Q) →
  returns (b ← st_button ui label;
           (if b : bool then set_page target else mret ());; k) w Q.
Proof.
  intros Hp HQ. apply returns_bind, returns_button. intros w1 E1.
  apply returns_bind.
  destruct (bool_decide (clicked ui = Some label)).
  - apply returns_set_page. intros w2 K2 P2. apply HQ; [|done].
    eapply keeps_data_trans; [|exact K2]. eapply extends_keeps_data, E1.
  - apply returns_ret, HQ; [eapply extends_keeps_data, E1|].
    now rewrite (extends_page _ _ _ E1).
Qed.

Lemma returns_show_home ui p w (Q : () → world → Prop) :
  page_of w = Some p →
  (∀ w', keeps_data w w' →
         page_of w'
         = Some (if bool_decide (clicked ui = Some "Cross-country Analysis")
                 then "cross"
                 else if bool_decide (clicked ui = Some "Individual Analysis")
                      then "individual" else p) →
         Q () w') →
  returns (show_home ui) w Q.
Proof.
  intros Hp HQ. unfold show_home.
  apply returns_bind, returns_emit. intros w1 E1.
  apply returns_bind, returns_emit. intros w2 E2.
  pose proof (extends_trans _ _ _ _ _ E1 E2) as E.
  apply (returns_goto_button_then _ _ _ p);
    [now rewrite (extends_page _ _ _ E)|]. intros w3 K3 P3.
  eapply returns_goto_button; [exact P3|]. intros w4 K4 P4.
  apply HQ; [|done].
  eapply keeps_data_trans; [eapply extends_keeps_data, E|].
  eapply keeps_data_trans; eauto.
Qed.

Lemma returns_show_individual ui p w (Q : () → world → Prop) :
  page_of w = Some p →
  (∀ w', keeps_data w w' →
         page_of w'
         = Some (if bool_decide (clicked ui = Some "Sierra Leone")
                 then "Sierra Leone"
                 else if bool_decide (clicked ui = Some "Estonia")
                      then "Estonia"
                      else if bool_decide (clicked ui = Some "USA") then "USA"
                           else if bool_decide (clicked ui = Some "Nepal")
                                then "Nepal" else p) →
         Q () w') →
  returns (show_individual ui) w Q.
Proof.
  intros Hp HQ. unfold show_individual.
  apply returns_bind, returns_emit. intros w1 E1.
  apply returns_bind, returns_emit. intros w2 E2.
  pose proof (extends_trans _ _ _ _ _ E1 E2) as E.
  apply (returns_goto_button_then _ _ _ p);
    [now rewrite (extends_page _ _ _ E)|]. intros w3 K3 P3.
  eapply returns_goto_button_then; [exact P3|]. intros w4 K4 P4.
  eapply returns_goto_button_then; [exact P4|]. intros w5 K5 P5.
  eapply returns_goto_button; [exact P5|]. intros w6 K6 P6.
  apply HQ; [|done].
  eapply keeps_data_trans; [eapply extends_keeps_data, E|].
  repeat (eapply keeps_data_trans; [eassumption|]). apply keeps_data_refl.
Qed.

(** [show_back_button] on a page that has a parent, or on the home page. *)
Lemma returns_show_back_button ui p w (Q : () → world → Prop) :
  page_of w = Some p →
  (p = "home" ∨ is_Some (PARENTS !! p)) →
  (∀ w', keeps_data w w' →
         page_of w'
         = Some (if bool_decide (p ≠ "home")
                    && bool_decide (clicked ui = Some "Go Back")
                 then default p (PARENTS !! p) else p) →
         (p = "home" → w' = w) →
         Q () w') →
  returns (show_back_button ui) w Q.
Proof.
  intros Hp Hpar HQ. unfold show_back_button.
  apply returns_bind, (returns_get_page p); [done|].
  destruct (bool_decide (p ≠ "home")) eqn:Hne; simpl.
  - apply returns_bind, returns_sidebar_button. intros w1 E1.
    assert (Hp1 : page_of w1 = Some p) by now rewrite (extends_page _ _ _ E1).
    destruct (bool_decide (clicked ui = Some "Go Back")).
    + apply returns_bind, (returns_get_page p); [done|].
      apply bool_decide_eq_true in Hne.
      destruct Hpar as [?|[q Hq]]; [done|].
      apply returns_bind. unfold getitem. rewrite Hq. apply returns_ret.
      apply returns_set_page. intros w2 K2 P2. apply HQ.
      * eapply keeps_data_trans; [eapply extends_keeps_data, E1|done].
      * now rewrite Hq.
      * done.
    + apply bool_decide_eq_true in Hne.
      apply returns_ret, HQ; [eapply extends_keeps_data, E1|done|done].
  - apply returns_ret, HQ; done.
Qed.

End navigation.

Lemma pages_parent :
  Forall (λ p, (p = "home" ∨ is_Some (PARENTS !! p))
               ∧ default p (PARENTS !! p) ∈ pages) pages.
Proof.
  unfold pages at 2.
  repeat (apply Forall_cons; split; [split|]); try apply Forall_nil.
  all: try (by left).
  all: try (by right; vm_compute; eauto).
  all: try done.
  all: apply list_elem_of_In; vm_compute; tauto.
Qed.

Lemma indicators_lookup (k : string) :
  k ∈ indicators.*1 → is_Some ((list_to_map indicators : gmap string string) !! k).
Proof.
  intros Hk. destruct (list_to_map indicators !! k) eqn:E; [eauto|].
  now apply not_elem_of_list_to_map in E.
Qed.

Section main.
Context {O M : Type} `{!EqDecision O, !EqDecision M}.
Local Abbreviation world := (world (O := O) (M := M)).
Implicit Types (w : world) (label_data : loc) (t : list (row O M)).
Implicit Types (ui : widgets) (p : string).

Lemma ids_present_filterByCountry t (c : string) :
  ids_present t → ids_present (filterByCountry t c).
Proof.
  unfold ids_present. rewrite !Forall_forall.
  intros H r [Hr _]%elem_of_filterByCountry. now apply H.
Qed.

(** The page of a country returns, or raises [IndexError] when a row of the
    country has no indicator id. *)
Lemma show_country_outcome ui label_data title country_code t w :
  heap w !! label_data = Some (DataFrame t) →
  outcome (show_country ui label_data title country_code) w
    (λ e, e = IndexError ∧ ¬ ids_present t)
    (λ _ w', ∃ es, extends w es w').
Proof.
  intros Hl.
  destruct (decide (ids_present (filterByCountry t country_code)))
    as [Hids|Hids].
  - apply outcome_returns. eapply returns_show_country; [exact Hl|done|].
    intros w' E. eauto.
  - eapply outcome_raises; [by eapply show_country_raises|].
    split; [done|]. intros H. now apply Hids, ids_present_filterByCountry.
Qed.

(** One run of [main] from a page it knows, or on the first render.  It
    leaves the frames and the cache as they were and ends on a page it
    knows, unless the page it shows raises: a page of a country
    [IndexError], when a row of the table has no indicator id, and the page
    of the indicators [StreamlitDuplicateElementId], when no row of the
    selected indicator has a country. *)
Lemma main_outcome ui label_data t w :
  heap w !! label_data = Some (DataFrame t) →
  (page_of w = None ∨ ∃ p, p ∈ pages ∧ page_of w = Some p) →
  outcome (main ui label_data) w
    (λ e, (e = IndexError ∧ ¬ ids_present t)
          ∨ (e = StreamlitDuplicateElementId
             ∧ ¬ has_country (filterByIndicator t (selected_indicator ui))))
    (λ _ w', keeps_data w w' ∧ ∃ p, p ∈ pages ∧ page_of w' = Some p).
Proof.
  intros Hl Hpage. unfold main.
  (* the page key is there after the first statement *)
  apply outcome_bind. unfold has_page at 1, returns at 1. fold (page_of w).
  apply outcome_bind.
  apply (returns_mono _ _
           (λ _ w1, keeps_data w w1 ∧ ∃ p, p ∈ pages ∧ page_of w1 = Some p)).
  { destruct Hpage as [Hnone|(p & Hp & Hsome)].
    - rewrite Hnone. simpl. apply returns_set_page. intros w1 K1 P1.
      split; [done|]. exists "home". split; [in_list|done].
    - rewrite Hsome. simpl. apply returns_ret. eauto using keeps_data_refl. }
  intros _ w1 (K1 & p0 & Hp0 & P1).
  pose proof (proj1 (Forall_forall _ _) pages_parent p0 Hp0) as [Hpar Hparent].
  apply outcome_bind, (returns_show_back_button _ p0); [done|done|].
  intros w2 K2 P2 _.
  set (p1 := if bool_decide (p0 ≠ "home")
                && bool_decide (clicked ui = Some "Go Back")
             then default p0 (PARENTS !! p0) else p0) in P2.
  assert (Hp1 : p1 ∈ pages) by (unfold p1; now destruct (_ && _)).
  assert (K : keeps_data w w2) by (eapply keeps_data_trans; eauto).
  assert (Hl2 : heap w2 !! label_data = Some (DataFrame t))
    by (eapply keeps_data_lookup; eauto).
  clearbody p1. clear Hparent Hpar P1 K1 K2 Hp0 p0 w1 Hpage.
  unfold pages in Hp1.
  repeat (apply elem_of_cons in Hp1 as [->|Hp1]); [..|inversion Hp1];
    repeat (apply outcome_bind; eapply returns_page_is; [exact P2|]; simpl).
  - apply outcome_returns.
    eapply returns_show_home; [exact P2|]. intros w3 K3 P3.
    split; [eapply keeps_data_trans; eauto|]. eexists. split; [|exact P3].
    repeat case_bool_decide; in_list.
  - apply outcome_returns.
    eapply returns_show_individual; [exact P2|]. intros w3 K3 P3.
    split; [eapply keeps_data_trans; eauto|]. eexists. split; [|exact P3].
    repeat case_bool_decide; in_list.
  - destruct (decide (has_country
                        (filterByIndicator t (selected_indicator ui))))
      as [Hsel|Hsel].
    + apply outcome_returns.
      eapply returns_show_cross; [exact Hl2|exact Hsel|].
      intros w3 description df _ E3.
      split; [eapply keeps_data_trans; eauto using extends_keeps_data|].
      exists "cross". rewrite (extends_page _ _ _ E3).
      split; [in_list|done].
    + eapply outcome_raises; [by eapply show_cross_raises|]. now right.
  - eapply outcome_mono; [eapply show_country_outcome, Hl2|by left|].
    intros _ w3 (es & E3).
    split; [eapply keeps_data_trans; eauto using extends_keeps_data|].
    exists "Nepal". rewrite (extends_page _ _ _ E3).
    split; [in_list|done].
  - eapply outcome_mono; [eapply show_country_outcome, Hl2|by left|].
    intros _ w3 (es & E3).
    split; [eapply keeps_data_trans; eauto using extends_keeps_data|].
    exists "Estonia". rewrite (extends_page _ _ _ E3).
    split; [in_list|done].
  - eapply outcome_mono; [eapply show_country_outcome, Hl2|by left|].
    intros _ w3 (es & E3).
    split; [eapply keeps_data_trans; eauto using extends_keeps_data|].
    exists "Sierra Leone". rewrite (extends_page _ _ _ E3).
    split; [in_list|done].
  - eapply outcome_mono; [eapply show_country_outcome, Hl2|by left|].
    intros _ w3 (es & E3).
    split; [eapply keeps_data_trans; eauto using extends_keeps_data|].
    exists "USA". rewrite (extends_page _ _ _ E3).
    split; [in_list|done].
Qed.


End main.

(** ** The claims about navigation *)

(** C3: the first render sets the page to home; from home, a click on
    "Individual Analysis" leads to individual and a click on "Go Back" from
    there leads back to home; from individual, a click on "Nepal" leads to
    Nepal and "Go Back" from there to individual, the parent that [PARENTS]
    records; on the home page the back button is not rendered and
    [show_back_button] changes nothing, whatever was clicked.  The same holds
    of the two transitions by themselves: [back] after [goto "individual"]
    ends on home, [back] after [goto "Nepal"] on individual, and [back] on
    home is the identity. *)
Theorem navigation_goto_back {O M} `{!EqDecision O, !EqDecision M}
    (label_data : loc) (w : world (O := O) (M := M)) :
  (page_of w = None → ∀ ui, clicked ui = None →
   returns (main ui label_data) w (λ _ w', page_of w' = Some "home"))
  ∧ (page_of w = Some "home" → ∀ ui, clicked ui = Some "Individual Analysis" →
     returns (main ui label_data) w (λ _ w1,
       page_of w1 = Some "individual"
       ∧ ∀ ui', clicked ui' = Some "Go Back" →
           returns (main ui' label_data) w1 (λ _ w2,
             page_of w2 = Some "home")))
  ∧ (page_of w = Some "individual" → ∀ ui, clicked ui = Some "Nepal" →
     returns (main ui label_data) w (λ _ w1,
       page_of w1 = Some "Nepal"
       ∧ ∀ ui', clicked ui' = Some "Go Back" →
           returns (main ui' label_data) w1 (λ _ w2,
             page_of w2 = Some "individual")))
  ∧ (page_of w = Some "home" →
     (∀ ui, returns (show_back_button ui) w (λ _ w', w' = w))
     ∧ (∀ ui, clicked ui = Some "Go Back" →
          returns (main ui label_data) w (λ _ w',
            page_of w' = Some "home"
            ∧ rendered w'
              = (rendered w
                 ++ [Title "Home"; Columns 2; Button "Individual Analysis";
                     Button "Cross-country Analysis"])%list)))
  ∧ (returns (goto "individual";; back) w (λ _ w', page_of w' = Some "home")
     ∧ returns (goto "Nepal";; back) w (λ _ w', page_of w' = Some "individual")
     ∧ (page_of w = Some "home" → returns back w (λ _ w', w' = w))).
Proof.
  split; [|split; [|split; [|split]]].
  - intros Hp ui Hc. run_main Hp Hc. done.
  - intros Hp ui Hc. run_main Hp Hc. split; [done|].
    intros ui' Hc'. run_main Hp Hc'. done.
  - intros Hp ui Hc. run_main Hp Hc. split; [done|].
    intros ui' Hc'. run_main Hp Hc'. done.
  - intros Hp. split.
    + intros ui. run_main Hp Hp. done.
    + intros ui Hc. run_main Hp Hc. split; [done|]. by rewrite <- !app_assoc.
  - split; [|split].
    + unfold goto, back. run_main (@eq_refl bool true) (@eq_refl bool true).
      done.
    + unfold goto, back. run_main (@eq_refl bool true) (@eq_refl bool true).
      done.
    + intros Hp. unfold back. run_main Hp Hp. done.
Qed.

Lemma navigation_goto_back_witness :
  let w0 : world (O := ()) (M := ()) := World ∅ ∅ None [] in
  let home : world (O := ()) (M := ()) := World {["page" := "home"]} ∅ None [] in
  returns (main (Widgets None [] "") 1%positive) w0
    (λ _ w', page_of w' = Some "home")
  ∧ returns (main (Widgets (Some "Individual Analysis") [] "") 1%positive) home
      (λ _ w1,
         page_of w1 = Some "individual"
         ∧ ∀ ui', clicked ui' = Some "Go Back" →
             returns (main ui' 1%positive) w1 (λ _ w2, page_of w2 = Some "home")).
Proof.
  cbv zeta. split.
  - apply (proj1 (navigation_goto_back 1%positive (World ∅ ∅ None [])));
      reflexivity.
  - apply (proj1 (proj2 (navigation_goto_back 1%positive
                           (World {["page" := "home"]} ∅ None []))));
      reflexivity.
Defined.




(** ** The claims about the pages *)



(** The failing input of C8: one row of Nepal has no indicator id.  With
    nothing selected the page of Nepal raises [IndexError]. *)
Example empty_selection_missing_id :
  let t := [Row (Some "NPL") (Some "NER.02.CP") 2010%Z 1%float ()
                (Some "Net enrolment rate") ();
            Row (Some "NPL") None 2011%Z 2%float () None ()] in
  let w : world (O := ()) (M := ()) :=
    World {["page" := "Nepal"]} {[1%positive := DataFrame t]} None [] in
  let ui := Widgets None [] "" in
  indicator_options t "NPL" = [Some "NER.02.CP"; None]
  ∧ create_line_chart_with_selection ui 1%positive "NPL" w = inl IndexError
  ∧ show_nepal ui 1%positive w = inl IndexError
  ∧ main ui 1%positive w = inl IndexError.
Proof. cbv zeta. repeat split; vm_compute; reflexivity. Qed.

(** C10: the queries read the merged table and do not change it.  On every
    table the query of the rows of a country (with its option list) and the
    query of the rows of an indicator (with its aggregation) return, emit
    nothing and leave every frame, the frame of [label_data] among them, and
    the cached table as they were: the frames they produce are other frames.
    So do the runs of [create_line_chart_with_selection], of [show_cross]
    and of [main] as a whole, whenever they return; they raise only
    [IndexError], when a row has no indicator id, and
    [StreamlitDuplicateElementId], when no row of the selected indicator has
    a country. *)
Theorem queries_keep_label_data {O M} `{!EqDecision O, !EqDecision M}
    ui label_data (t : list (row O M)) (w : world) :
  heap w !! label_data = Some (DataFrame t) →
  (∀ country_code,
     returns (country_query label_data country_code) w
       (λ '(df, unique, options) w',
          extends w [] w'
          ∧ heap w' !! label_data = Some (DataFrame t)
          ∧ heap w' !! df = Some (DataFrame (filterByCountry t country_code))
          ∧ heap w' !! unique
            = Some (IndicatorFrame (unique_indicators t country_code))
          ∧ options = indicator_options t country_code))
  ∧ (∀ selected_indicator,
       returns (indicator_query label_data selected_indicator) w
         (λ df w',
            extends w [] w'
            ∧ heap w' !! label_data = Some (DataFrame t)
            ∧ heap w' !! df
              = Some (DataFrame (filterByIndicator t selected_indicator))
            ∧ returns (df_groupby_mean df) w'
                (λ df_bar w'',
                   extends w' [] w''
                   ∧ heap w'' !! label_data = Some (DataFrame t)
                   ∧ heap w'' !! df
                     = Some (DataFrame
                               (filterByIndicator t selected_indicator))
                   ∧ heap w'' !! df_bar
                     = Some (MeanFrame
                               (groupby_year_country_mean
                                  (filterByIndicator t
                                     selected_indicator))))))
  ∧ (∀ country_code,
       outcome (create_line_chart_with_selection ui label_data country_code) w
         (λ e, e = IndexError
               ∧ ¬ ids_present (filterByCountry t country_code))
         (λ _ w', keeps_data w w'
                  ∧ heap w' !! label_data = Some (DataFrame t)))
  ∧ outcome (show_cross ui label_data) w
      (λ e, e = StreamlitDuplicateElementId
            ∧ ¬ has_country (filterByIndicator t (selected_indicator ui)))
      (λ _ w', keeps_data w w'
               ∧ heap w' !! label_data = Some (DataFrame t))
  ∧ ((page_of w = None ∨ ∃ p, p ∈ pages ∧ page_of w = Some p) →
     outcome (main ui label_data) w
       (λ e, (e = IndexError ∧ ¬ ids_present t)
             ∨ (e = StreamlitDuplicateElementId
                ∧ ¬ has_country
                      (filterByIndicator t (selected_indicator ui))))
       (λ _ w', keeps_data w w'
                ∧ heap w' !! label_data = Some (DataFrame t))).
Proof.
  intros Hl. split; [|split; [|split; [|split]]].
  - intros country_code. eapply returns_country_query; [exact Hl|].
    intros df uniq w' E L U. repeat split; try done.
    + apply E.
    + apply E.
    + apply E.
    + apply E.
    + eapply extends_lookup; [exact E|exact Hl].
  - intros sel. eapply returns_indicator_query; [exact Hl|].
    intros df w' E L. split; [exact E|].
    assert (Hl' : heap w' !! label_data = Some (DataFrame t))
      by (eapply extends_lookup; [exact E|exact Hl]).
    split; [exact Hl'|]. split; [exact L|].
    eapply returns_df_groupby_mean; [exact L|]. intros df_bar w'' E' L'.
    split; [exact E'|]. eauto using extends_lookup.
  - intros country_code.
    destruct (decide (ids_present (filterByCountry t country_code)))
      as [Hids|Hids].
    + apply outcome_returns.
      eapply returns_create_line_chart; [exact Hl|exact Hids|].
      intros w' E%extends_keeps_data. eauto using keeps_data_lookup.
    + eapply outcome_raises; [by eapply create_line_chart_raises|done].
  - destruct (decide (has_country
                        (filterByIndicator t (selected_indicator ui))))
      as [Hc|Hc].
    + apply outcome_returns. eapply returns_show_cross; [exact Hl|exact Hc|].
      intros w' description df _ E%extends_keeps_data.
      eauto using keeps_data_lookup.
    + eapply outcome_raises; [by eapply show_cross_raises|done].
  - intros Hp. eapply outcome_mono; [by eapply main_outcome|done|].
    intros _ w' [K _]. eauto using keeps_data_lookup.
Qed.

Lemma queries_keep_label_data_witness :
  let t := [Row (Some "NPL") (Some "NER.02.CP") 2010%Z 1%float ()
                (Some "Net enrolment rate") ();
            Row (Some "USA") (Some "NER.02.CP") 2010%Z 3%float ()
                (Some "Net enrolment rate") ()] in
  let w : world (O := ()) (M := ()) :=
    World {["page" := "cross"]} {[1%positive := DataFrame t]} (Some t) [] in
  let ui := Widgets None [] "NER.02.CP" in
  heap w !! 1%positive = Some (DataFrame t)
  ∧ returns (indicator_query 1%positive "NER.02.CP") w
      (λ df w',
         extends w [] w'
         ∧ heap w' !! 1%positive = Some (DataFrame t)
         ∧ heap w' !! df = Some (DataFrame (filterByIndicator t "NER.02.CP"))
         ∧ returns (df_groupby_mean df) w'
             (λ df_bar w'',
                extends w' [] w''
                ∧ heap w'' !! 1%positive = Some (DataFrame t)
                ∧ heap w'' !! df
                  = Some (DataFrame (filterByIndicator t "NER.02.CP"))
                ∧ heap w'' !! df_bar
                  = Some (MeanFrame
                            (groupby_year_country_mean
                               (filterByIndicator t "NER.02.CP")))))
  ∧ outcome (show_cross ui 1%positive) w
      (λ e, e = StreamlitDuplicateElementId
            ∧ ¬ has_country (filterByIndicator t (selected_indicator ui)))
      (λ _ w', keeps_data w w' ∧ heap w' !! 1%positive = Some (DataFrame t)).
Proof.
  intros t w ui.
  assert (Hl : heap w !! 1%positive = Some (DataFrame t)) by reflexivity.
  split; [exact Hl|]. split.
  - exact (proj1 (proj2 (queries_keep_label_data ui 1%positive t w Hl))
             "NER.02.CP").
  - exact (proj1 (proj2 (proj2 (proj2
             (queries_keep_label_data ui 1%positive t w Hl))))).
Defined.

(** ** The source text *)

Lemma compile_app (src rest : list Syntax.logical_line) (lineno : nat) :
  Syntax.compile src = Some lineno →
  Syntax.compile (src ++ rest) = Some lineno.
Proof.
  induction src as [|[n l] src IH]; simpl; [done|].
  destruct (Syntax.juxtaposed_names l); [done|apply IH].
Qed.

(** A line that the check lets pass is skipped. *)
Lemma compile_cons_ok (n : nat) (l : list Syntax.token)
    (src : list Syntax.logical_line) :
  Syntax.juxtaposed_names l = false →
  Syntax.compile ((n, l) :: src) = Syntax.compile src.
Proof. intros H. simpl. now rewrite H. Qed.

(** A line that the check refuses is where compilation stops. *)
Lemma compile_cons_error (n : nat) (l : list Syntax.token)
    (src : list Syntax.logical_line) :
  Syntax.juxtaposed_names l = true →
  Syntax.compile ((n, l) :: src) = Some n.
Proof. intros H. simpl. now rewrite H. Qed.

Lemma pip_install_plotly :
  Syntax.juxtaposed_names
    [Syntax.NAME "pip"; Syntax.NAME "install"; Syntax.NAME "plotly"] = true.
Proof. reflexivity. Qed.

(** C2: line 4, [pip install plotly], is not a Python statement, and it is the
    first line the compiler refuses: lines 1 and 2 pass, and so would lines 5
    and 6.  Whatever follows line 6, and for every content of the files, every
    widget state and every world, running the file raises the syntax error of
    line 4: nothing of the script is run, no element is emitted and no state
    is returned. *)
Theorem UIS_app_does_not_compile {O M} `{!EqDecision O, !EqDecision M}
    (na : M) (rest : list Syntax.logical_line) :
  Syntax.compile (Syntax.UIS_app_head ++ rest) = Some 4
  ∧ Syntax.compile (take 2 Syntax.UIS_app_head) = None
  ∧ Syntax.compile (drop 3 Syntax.UIS_app_head) = None
  ∧ (∀ (fs : files) ui (w : world (O := O) (M := M)),
       exec_module na (Syntax.UIS_app_head ++ rest) fs ui w
       = inl (SyntaxError 4))
  ∧ (∀ (fs : files) ui (w : world (O := O) (M := M)) (Q : () → world → Prop),
       ¬ returns (exec_module na (Syntax.UIS_app_head ++ rest) fs ui) w Q).
Proof.
  assert (H4 : Syntax.compile (Syntax.UIS_app_head ++ rest) = Some 4).
  { apply compile_app. unfold Syntax.UIS_app_head.
    rewrite !compile_cons_ok by reflexivity.
    apply compile_cons_error, pip_install_plotly. }
  split; [exact H4|]. split; [reflexivity|]. split; [reflexivity|]. split.
  - intros fs ui w. unfold exec_module. now rewrite H4.
  - intros fs ui w Q. unfold returns, exec_module. now rewrite H4.
Qed.

(** * Further properties *)


(** ** More on the loader *)

Lemma load_data_id {O M} (na : M) (data : list (raw_row O))
    (metadata : list (meta_row M)) (r : row O M) :
  r ∈ load_data na data metadata →
  ∃ o, o ∈ data ∧ INDICATOR_ID r = Text.normalise (raw_indicator_id o).
Proof.
  rewrite load_data_merge_left. intros (d & Hd & H)%elem_of_merge_left.
  apply list_elem_of_fmap in Hd as (o & -> & Ho). exists o. split; [done|].
  destruct H as [(m & _ & _ & ->)|[_ ->]]; done.
Qed.

(** X1: every indicator id of the merged table is in normal form: upper-casing
    and stripping it again changes nothing, it has no lower-case letter and
    neither leading nor trailing white space. *)
Theorem load_data_ids_normalised {O M} (na : M) (data : list (raw_row O))
    (metadata : list (meta_row M)) (r : row O M) :
  r ∈ load_data na data metadata →
  Text.normalise (INDICATOR_ID r) = INDICATOR_ID r
  ∧ ∀ s, INDICATOR_ID r = Some s →
         Text.upper s = s ∧ Text.strip s = s
         ∧ Forall (λ c, Text.is_lower c = false) (list_ascii_of_string s).
Proof.
  intros (o & _ & ->)%load_data_id. split; [apply normalise_idem|].
  destruct (raw_indicator_id o) as [x|]; simpl; [|done]. intros s [= <-].
  split; [now rewrite upper_strip, upper_idem|]. split; [apply strip_idem|].
  rewrite <- (upper_idem x), <- upper_strip. apply upper_no_lower.
Qed.

Lemma load_data_ids_normalised_witness :
  let data := [RawRow (Some "NPL") (Some " ner.02.cp ") None 2010%Z 1%float ()] in
  let r := Row (Some "NPL") (Some "NER.02.CP") 2010%Z 1%float () None () in
  r ∈ load_data () data []
  ∧ Text.normalise (INDICATOR_ID r) = INDICATOR_ID r.
Proof.
  cbv zeta. split; [left|].
  refine (proj1 (load_data_ids_normalised ()
                   [RawRow (Some "NPL") (Some " ner.02.cp ") None 2010%Z
                      1%float ()] [] _ _)).
  left.
Defined.

(** X2: only the observation side of the join key is normalised.  A metadata
    row whose id is not already upper-case and stripped matches no
    observation, and no row of the merged table has its id: also when the two
    files spell the id the same way. *)
Theorem metadata_id_not_normalised {O M} (na : M) (data : list (raw_row O))
    (metadata : list (meta_row M)) (m : meta_row M) :
  Text.normalise (m_INDICATOR_ID m) ≠ m_INDICATOR_ID m →
  (∀ o : raw_row O, m ∉ matches metadata (prepared o))
  ∧ (∀ r, r ∈ load_data na data metadata →
          INDICATOR_ID r ≠ m_INDICATOR_ID m).
Proof.
  intros Hm. split.
  - intros o [_ E]%elem_of_matches. apply Hm. rewrite E. apply normalise_idem.
  - intros r (o & _ & ->)%load_data_id E. apply Hm. rewrite <- E.
    apply normalise_idem.
Qed.

Lemma metadata_id_not_normalised_witness :
  let data := [RawRow (Some "NPL") (Some "ner.02.cp") None 2010%Z 1%float ()] in
  let metadata := [MetaRow (Some "ner.02.cp") (Some "Net enrolment rate") ()] in
  load_data () data metadata
  = [Row (Some "NPL") (Some "NER.02.CP") 2010%Z 1%float () None ()]
  ∧ ∀ r, r ∈ load_data () data metadata → INDICATOR_ID r ≠ Some "ner.02.cp".
Proof.
  cbv zeta. split; [reflexivity|].
  apply (metadata_id_not_normalised () _ _
           (MetaRow (Some "ner.02.cp") (Some "Net enrolment rate") ())).
  discriminate.
Defined.

(** X3: when the metadata has one row per indicator id, the observation
    columns of the merged table are those of the observation file, row by row
    in the same order, the indicator id normalised. *)
Theorem load_data_keeps_observations {O M} (na : M) (data : list (raw_row O))
    (metadata : list (meta_row M)) :
  NoDup (m_INDICATOR_ID <$> metadata) →
  (λ r : row O M, (country_id r, INDICATOR_ID r, year r, value r, rest r))
    <$> load_data na data metadata
  = (λ o, (raw_country_id o, Text.normalise (raw_indicator_id o),
           raw_year o, raw_value o, raw_rest o)) <$> data.
Proof.
  intros Hu. rewrite load_data_merge_left, merge_left_bind.
  induction data as [|o data IH]; [done|].
  rewrite !fmap_cons, bind_cons, fmap_app, IH. f_equal.
  pose proof (merged_rows_unique na metadata (prepared o) Hu) as Hlen.
  unfold merged_rows in *.
  destruct (matches metadata (prepared o)) as [|m [|m' ms]]; simpl in *;
    done.
Qed.

Lemma load_data_keeps_observations_witness :
  let data := [RawRow (Some "USA") (Some "xgdp.fsgov") None 2011%Z 4%float ();
               RawRow (Some "NPL") (Some " ner.02.cp") None 2010%Z 1%float ()] in
  let metadata := [MetaRow (Some "NER.02.CP") (Some "Net enrolment rate") ()] in
  (λ r : row () (), (country_id r, INDICATOR_ID r, year r, value r, rest r))
    <$> load_data () data metadata
  = [(Some "USA", Some "XGDP.FSGOV", 2011%Z, 4%float, ());
     (Some "NPL", Some "NER.02.CP", 2010%Z, 1%float, ())].
Proof.
  cbv zeta.
  apply (load_data_keeps_observations ()
           [RawRow (Some "USA") (Some "xgdp.fsgov") None 2011%Z 4%float ();
            RawRow (Some "NPL") (Some " ner.02.cp") None 2010%Z 1%float ()]
           [MetaRow (Some "NER.02.CP") (Some "Net enrolment rate") ()]).
  apply NoDup_singleton.
Defined.

(** ** More on the queries *)

Section queries_more.
Context {O M : Type} `{!EqDecision O, !EqDecision M}.
Implicit Types (t df : list (row O M)) (r : row O M).

Lemma filter_all {A} (P : A → Prop) `{!∀ x, Decision (P x)} (l : list A) :
  Forall P l → filter P l = l.
Proof.
  induction 1 as [|x l Hx Hl IH]; [done|].
  rewrite filter_cons, decide_True by done. now f_equal.
Qed.

(** [drop_duplicates] leaves alone a frame in which no two rows are the same
    row. *)
Lemma drop_duplicates_from_fixed {A K} (same : A → A → bool) (key : A → K)
    (seen l : list A) :
  (∀ x y, same x y = true ↔ key x = key y) →
  NoDup (key <$> l) → (∀ x, x ∈ l → key x ∉ key <$> seen) →
  drop_duplicates_from same seen l = l.
Proof.
  intros Hk. revert seen. induction l as [|x l IH]; intros seen; [done|].
  rewrite fmap_cons, NoDup_cons. intros [Hx Hl] Hseen. simpl.
  destruct (existsb (same x) seen) eqn:E.
  - apply (existsb_same same key Hk) in E. destruct (Hseen x); [left|done].
  - f_equal. apply IH; [done|]. intros y Hy.
    rewrite fmap_cons, not_elem_of_cons. split.
    + intros Heq. apply Hx. rewrite <- Heq. now apply list_elem_of_fmap_2.
    + apply Hseen. now right.
Qed.

Lemma drop_duplicates_idem {A K} (same : A → A → bool) (key : A → K)
    (l : list A) :
  (∀ x y, same x y = true ↔ key x = key y) →
  drop_duplicates same (drop_duplicates same l) = drop_duplicates same l.
Proof.
  intros Hk. apply (drop_duplicates_from_fixed same key); [done| |].
  - now apply drop_duplicates_NoDup.
  - intros x _ H. inversion H.
Qed.

(** X4: the indicator query is idempotent: querying its result for the same
    indicator returns the result. *)
Theorem filterByIndicator_idem t (selected_indicator : string) :
  filterByIndicator (filterByIndicator t selected_indicator) selected_indicator
  = filterByIndicator t selected_indicator.
Proof.
  unfold filterByIndicator at 1. rewrite filter_all.
  - apply (drop_duplicates_idem _ row_key), row_eqb_key.
  - apply Forall_forall. intros r Hr.
    now apply elem_of_filterByIndicator in Hr as [_ ?].
Qed.




(** X6: the bar chart leaves out the rows whose country is missing: they
    belong to no group. *)
Theorem groupby_drops_missing_country df :
  groupby_year_country_mean df
  = groupby_year_country_mean (filter (λ r, is_Some (country_id r)) df).
Proof.
  assert (Hkeys : omap group_key (filter (λ r, is_Some (country_id r)) df)
                  = omap group_key df).
  { induction df as [|r df IH]; [done|]. rewrite filter_cons.
    destruct (decide (is_Some (country_id r))) as [Hs|Hn]; csimpl.
    - now rewrite IH.
    - rewrite IH. unfold group_key at 2.
      destruct (country_id r); [destruct Hn; eauto|done]. }
  unfold groupby_year_country_mean, group_keys. rewrite Hkeys.
  apply list_fmap_ext. intros _ k _. do 2 f_equal. unfold group_values.
  f_equal. rewrite list_filter_filter. apply list_filter_iff. intros r.
  split; [|tauto]. intros Hk. split; [done|].
  apply group_key_Some in Hk as [_ ->]. eauto.
Qed.

(** NaN values do not count in the mean of a group. *)
Lemma group_mean_skips_nan (l1 l2 : list float) :
  group_mean (l1 ++ nan :: l2) = group_mean (l1 ++ l2).
Proof.
  unfold group_mean.
  now rewrite !List.filter_app.
Qed.

End queries_more.

(** X7: with one metadata row per indicator id, the rows of the option frame
    are determined by the rows of the country, not by how the sort breaks
    ties or by the order of the rows in the file: any ascending arrangement of
    the distinct pairs is [unique_indicators]. *)
Theorem unique_indicators_canonical {O M} (na : M) (data : list (raw_row O))
    (metadata : list (meta_row M)) (country_code : string)
    (l : list indicator) :
  NoDup (m_INDICATOR_ID <$> metadata) →
  l ≡ₚ drop_duplicates (λ p q, bool_decide (p = q))
         (id_and_label
            <$> filterByCountry (load_data na data metadata) country_code) →
  Sorted indicator_le l →
  l = unique_indicators (load_data na data metadata) country_code.
Proof.
  intros Hu Hp Hs.
  apply (StronglySorted_unique_strong indicator_le).
  - intros p q Hpl Hql Hpq Hqp.
    assert (Hin : ∀ x, x ∈ l → ∃ r, r ∈ load_data na data metadata
                                    ∧ x = id_and_label r).
    { intros x Hx. rewrite Hp in Hx.
      apply (proj1 (elem_of_drop_duplicates_eq _ _)) in Hx.
      apply list_elem_of_fmap in Hx as (r & -> & Hr).
      apply elem_of_filterByCountry in Hr as [Hr _]. eauto. }
    destruct (Hin p Hpl) as (r1 & H1 & ->).
    apply elem_of_unique_indicators in Hql as (r2 & H2 & _ & ->).
    fold (id_and_label r2) in *.
    unfold indicator_le in *. simpl in *.
    pose proof (cell_le_antisym _ _ Hpq Hqp) as E.
    unfold id_and_label. f_equal; [done|].
    rewrite load_data_merge_left in H1, H2.
    eapply (merge_left_label_unique na); eauto.
  - now apply Sorted_StronglySorted; [apply _|].
  - unfold unique_indicators, sort_values.
    apply stable_sort_StronglySorted; apply _.
  - unfold unique_indicators, sort_values. now rewrite stable_sort_Permutation.
Qed.

Lemma unique_indicators_canonical_witness :
  let data := [RawRow (Some "NPL") (Some "xgdp.fsgov") None 2010%Z 4%float ();
               RawRow (Some "NPL") (Some "ner.02.cp") None 2010%Z 1%float ()] in
  let metadata := [MetaRow (Some "NER.02.CP") (Some "Net enrolment rate") ()] in
  [(Some "NER.02.CP", Some "Net enrolment rate"); (Some "XGDP.FSGOV", None)]
  = unique_indicators (load_data () data metadata) "NPL".
Proof.
  cbv zeta. apply unique_indicators_canonical.
  - apply NoDup_singleton.
  - apply perm_swap.
  - repeat constructor.
Defined.

(** X8: [format_indicator] finds a label for every option that is an id: the
    label of a row of the country with that id, [nan] when it is missing.
    For the option NaN, which the list holds exactly when a row of the country
    has no indicator id, the comparison selects no row and [.iloc[0]] raises
    (here [None]). *)
Theorem format_indicator_options {O M} (t : list (row O M))
    (country_code : string) :
  (∀ s, Some s ∈ indicator_options t country_code →
        ∃ label,
          (Some s, label) ∈ unique_indicators t country_code
          ∧ format_indicator (unique_indicators t country_code) (Some s)
            = Some (s +:+ " - " +:+ str_cell label))
  ∧ format_indicator (unique_indicators t country_code) None = None
  ∧ (None ∈ indicator_options t country_code
     ↔ ∃ r, r ∈ t ∧ country_id r = Some country_code ∧ INDICATOR_ID r = None).
Proof.
  split; [|split].
  - intros s Hs. unfold indicator_options in Hs.
    apply list_elem_of_fmap in Hs as ([i label] & Hi & Hp). simpl in Hi.
    subst i. unfold format_indicator.
    destruct (filter _ (unique_indicators t country_code))
      as [|[i' label'] l] eqn:E.
    + assert (H : (Some s, label)
                  ∈ filter (λ p : indicator, is_Some (Some s) ∧ p.1 = Some s)
                      (unique_indicators t country_code))
        by (apply list_elem_of_filter; eauto).
      rewrite E in H. inversion H.
    + assert (H : (i', label')
                  ∈ filter (λ p : indicator, is_Some (Some s) ∧ p.1 = Some s)
                      (unique_indicators t country_code))
        by (rewrite E; left).
      apply list_elem_of_filter in H as [[_ Hi'] Hin]. simpl in Hi'.
      subst i'. exists label'. done.
  - apply format_indicator_nan.
  - unfold indicator_options. rewrite list_elem_of_fmap. split.
    + intros ([i label] & Hi & Hp). simpl in Hi. subst i.
      apply elem_of_unique_indicators in Hp as (r & Hr & Hc & [= E _]).
      eauto.
    + intros (r & Hr & Hc & E). exists (None, INDICATOR_LABEL_EN r).
      split; [done|]. apply elem_of_unique_indicators. exists r.
      rewrite E. done.
Qed.

(** ** More on navigation *)

Lemma parent_chain :
  Forall (λ p, parent_or_self (parent_or_self p) = "home"
               ∧ (p ≠ "home" → PARENTS !! p = Some (parent_or_self p)))
    pages.
Proof.
  unfold pages. repeat (apply Forall_cons; split; [split|]);
    try apply Forall_nil; try reflexivity; done.
Qed.

Section navigation_more.
Context {O M : Type} `{!EqDecision O, !EqDecision M}.
Local Abbreviation world := (world (O := O) (M := M)).
Implicit Types (w : world) (label_data : loc) (ui : widgets) (p : string).

Lemma returns_back p w (Q : () → world → Prop) :
  page_of w = Some p → p ∈ pages →
  (∀ w', keeps_data w w' → page_of w' = Some (parent_or_self p) → Q () w') →
  returns back w Q.
Proof.
  intros Hp Hin HQ.
  pose proof (proj1 (Forall_forall _ _) pages_parent p Hin) as [Hpar _].
  apply (returns_show_back_button _ p); [done|done|].
  intros w' K P _. apply HQ; [done|]. rewrite P. f_equal. simpl.
  destruct (bool_decide (p ≠ "home")) eqn:E; simpl; [done|].
  apply bool_decide_eq_false in E. apply dec_stable in E. now subst p.
Qed.

(** X9: the parent map leads home: from each of the seven pages, going back
    twice ends on the home page (once is enough from individual and cross; on
    home nothing moves). *)
Theorem back_twice_reaches_home p w :
  p ∈ pages → page_of w = Some p →
  returns (back;; back) w (λ _ w', page_of w' = Some "home").
Proof.
  intros Hin Hp.
  pose proof (proj1 (Forall_forall _ _) pages_parent p Hin) as [_ Hin'].
  pose proof (proj1 (Forall_forall _ _) parent_chain p Hin) as [Hhome _].
  apply returns_bind, (returns_back p); [done|done|]. intros w1 _ P1.
  apply (returns_back (parent_or_self p)); [done|done|]. intros w2 _ P2.
  now rewrite P2, Hhome.
Qed.

(** X10: a page without an entry in [PARENTS], home apart, cannot go back: the
    click on "Go Back" makes [show_back_button], and so [main], raise
    [KeyError] with the page as the key. *)
Theorem back_without_parent_raises ui label_data p w :
  page_of w = Some p → p ≠ "home" → PARENTS !! p = None →
  clicked ui = Some "Go Back" →
  show_back_button ui w = inl (KeyError p)
  ∧ main ui label_data w = inl (KeyError p).
Proof.
  unfold page_of. intros Hp Hne Hpar Hc.
  assert (E : show_back_button ui w = inl (KeyError p)).
  { unfold show_back_button, get_page, st_sidebar_button, emit, getitem, raise.
    unfold mbind, App_bind, mret, App_ret.
    rewrite Hp, (bool_decide_eq_true_2 _ Hne), Hc.
    rewrite bool_decide_eq_true_2 by done. simpl. now rewrite Hp, Hpar. }
  split; [exact E|]. unfold main, has_page.
  unfold mbind at 1 2 3, App_bind at 1 2 3, mret, App_ret. rewrite Hp.
  rewrite bool_decide_eq_true_2 by eauto. now rewrite E.
Qed.

(** X11: on a page that is none of the seven, [main] shows the back button and
    nothing else, and leaves the page as it is. *)
Theorem main_unknown_page ui label_data p w :
  page_of w = Some p → p ∉ pages → clicked ui ≠ Some "Go Back" →
  main ui label_data w
  = inr ((), {| session_state := session_state w;
                heap := heap w;
                cache_data := cache_data w;
                rendered := (rendered w ++ [SidebarButton "Go Back"])%list |}).
Proof.
  unfold page_of, pages. intros Hp Hin Hc.
  repeat (apply not_elem_of_cons in Hin as [? Hin]).
  unfold main, has_page, show_back_button, page_is, get_page,
    st_sidebar_button, emit.
  unfold mbind, App_bind, mret, App_ret. rewrite Hp.
  rewrite bool_decide_eq_true_2 by eauto. rewrite Hp.
  rewrite (bool_decide_eq_true_2 (p ≠ "home")) by done. simpl.
  rewrite (bool_decide_eq_false_2 _ Hc).
  repeat (progress (simpl; rewrite ?Hp, ?bool_decide_eq_false_2 by done)).
  done.
Qed.

(** X12: the page is dispatched before the handlers of its buttons run, so
    the run that a click on "Individual Analysis" starts still renders the
    home page, and the page of the click appears in the next run.  The back
    button is handled before the dispatch: its run renders the parent page
    at once. *)
Theorem click_is_rendered_in_the_next_run ui label_data w :
  page_of w = Some "home" → clicked ui = Some "Individual Analysis" →
  returns (main ui label_data) w (λ _ w1,
    page_of w1 = Some "individual"
    ∧ rendered w1
      = (rendered w
         ++ [Title "Home"; Columns 2; Button "Individual Analysis";
             Button "Cross-country Analysis"])%list
    ∧ ∀ ui', clicked ui' = None →
        returns (main ui' label_data) w1 (λ _ w2,
          rendered w2
          = (rendered w1
             ++ [SidebarButton "Go Back"; Title "Individual Analysis";
                 Columns 2; Button "Nepal"; Button "USA"; Button "Estonia";
                 Button "Sierra Leone"])%list
          ∧ ∀ ui'', clicked ui'' = Some "Go Back" →
              returns (main ui'' label_data) w2 (λ _ w3,
                page_of w3 = Some "home"
                ∧ rendered w3
                  = (rendered w2
                     ++ [SidebarButton "Go Back"; Title "Home"; Columns 2;
                         Button "Individual Analysis";
                         Button "Cross-country Analysis"])%list))).
Proof.
  intros Hp Hc. run_main Hp Hc.
  split; [done|]. split; [by rewrite <- !app_assoc|].
  intros ui' Hc'. run_main Hp Hc'. split; [by rewrite <- !app_assoc|].
  intros ui'' Hc''. run_main Hp Hc''. split; [done|]. by rewrite <- !app_assoc.
Qed.

End navigation_more.

(** ** The script as a whole *)

Section script_more.
Context {O M : Type} `{!EqDecision O, !EqDecision M}.
Variable na : M.
Local Abbreviation world := (world (O := O) (M := M)).
Local Abbreviation App := (App (O := O) (M := M)).
Implicit Types (w : world) (label_data : loc) (ui : widgets).
Implicit Types (fs : files (O := O) (M := M)) (t : list (row O M)).

(** X13: with nothing cached, a run of the script needs both files: without
    the observation file it raises [FileNotFoundError] for it, whatever the
    metadata file; with it and without the metadata file, for the metadata
    file.  No page is shown. *)
Theorem script_missing_file fs ui w :
  cache_data w = None →
  (UNESCO_edu_data_csv fs = None →
   script na fs ui w = inl (FileNotFoundError "UNESCO_edu_data.csv"))
  ∧ (is_Some (UNESCO_edu_data_csv fs) → SDG_METADATA_csv fs = None →
     script na fs ui w = inl (FileNotFoundError "SDG_METADATA.csv")).
Proof.
  intros Hc. unfold script, load_data_cached, load_data_body, read_csv, emit.
  unfold mbind, App_bind, mret, App_ret. simpl. rewrite Hc. split.
  - now intros ->.
  - intros [data ->] ->. done.
Qed.

(** What [load_data] does with the two files: it returns their join, or
    raises [AttributeError] at [.str] when the observations have rows and no
    indicator id in any, or [ValueError] at the join when they have an id
    and the metadata has rows and no id in any. *)
Lemma load_data_body_outcome fs data metadata w :
  UNESCO_edu_data_csv fs = Some data → SDG_METADATA_csv fs = Some metadata →
  load_data_body na fs w
  = if decide (is_text (raw_indicator_id <$> data)) then
      if decide (raw_indicator_id <$> data = []
                 ∨ m_INDICATOR_ID <$> metadata = []
                 ∨ is_text (m_INDICATOR_ID <$> metadata))
      then inr (load_data na data metadata, w)
      else inl ValueError
    else inl (AttributeError "str").
Proof.
  intros Hd Hm. unfold load_data_body, read_csv, str_accessor, merge_keys.
  unfold mbind, App_bind, mret, App_ret. rewrite Hd, Hm.
  destruct (decide (is_text (raw_indicator_id <$> data))) as [H1|H1].
  - rewrite (bool_decide_eq_true_2 _ H1).
    destruct (decide (_ ∨ _)) as [H2|H2].
    + now rewrite (bool_decide_eq_true_2 _ H2).
    + now rewrite (bool_decide_eq_false_2 _ H2).
  - now rewrite (bool_decide_eq_false_2 _ H1).
Qed.

Lemma not_is_text (column : list (option string)) :
  ¬ is_text column ↔ column ≠ [] ∧ Forall (λ c, c = None) column.
Proof.
  unfold is_text. split.
  - intros H. split; [tauto|]. apply Forall_forall. intros [x|] Hx; [|done].
    destruct H. right. apply Exists_exists. eauto.
  - intros [Hne Hall] [->|Hex]; [done|].
    apply Exists_exists in Hex as (c & Hc & [x ->]).
    now apply (proj1 (Forall_forall _ _) Hall) in Hc.
Qed.

(** X18: what [load_data] raises besides [FileNotFoundError].  With both
    files there it returns their join exactly when the column of the
    observation ids holds text and, unless one of the files is without rows,
    the column of the metadata ids does; when the observations have rows
    and no indicator id in any, [.str] raises [AttributeError]; when they
    have an id and the metadata has rows and no id in any, the join raises
    [ValueError]. *)
Theorem load_data_raises fs data metadata w :
  UNESCO_edu_data_csv fs = Some data → SDG_METADATA_csv fs = Some metadata →
  (loadable data metadata
   ↔ load_data_body na fs w = inr (load_data na data metadata, w))
  ∧ (data ≠ [] → Forall (λ o, raw_indicator_id o = None) data →
     load_data_body na fs w = inl (AttributeError "str"))
  ∧ (Exists (λ o, is_Some (raw_indicator_id o)) data →
     metadata ≠ [] → Forall (λ m, m_INDICATOR_ID m = None) metadata →
     load_data_body na fs w = inl ValueError).
Proof.
  intros Hd Hm. rewrite (load_data_body_outcome _ data metadata) by done.
  unfold loadable. split; [|split].
  - destruct (decide (is_text _)) as [H1|H1];
      [destruct (decide (_ ∨ _)) as [H2|H2]|]; split; try done; tauto.
  - intros Hne Hall. rewrite decide_False; [done|]. apply not_is_text.
    split; [now destruct data|]. now apply Forall_fmap.
  - intros Hex Hne Hall.
    rewrite decide_True by (right; now apply Exists_fmap).
    rewrite decide_False; [done|]. intros [H|[H|H]].
    + apply Exists_exists in Hex as (o & Ho & _). destruct data; [|done].
      inversion Ho.
    + now destruct metadata.
    + revert H. apply not_is_text. split; [now destruct metadata|].
      now apply Forall_fmap.
Qed.


(** X14: [st.cache_data] reads the files once.  When a table is cached, a run
    of the script does not depend on the files: it is the same whatever they
    hold, also when they are gone; and [label_data] is then a new frame, a
    copy of the cached table. *)
Theorem cached_table_hides_the_files fs fs' ui t w :
  cache_data w = Some t →
  script na fs ui w = script na fs' ui w
  ∧ returns (load_data_cached na fs) w (λ label_data w',
      heap w !! label_data = None
      ∧ heap w' !! label_data = Some (DataFrame t)
      ∧ cache_data w' = Some t).
Proof.
  intros Hc. split.
  - unfold script, load_data_cached, emit.
    unfold mbind, App_bind, mret, App_ret. simpl. now rewrite Hc.
  - unfold returns, load_data_cached, new_frame. rewrite Hc. simpl.
    split; [apply not_elem_of_dom, is_fresh|].
    split; [apply lookup_insert_eq|done].
Qed.






End script_more.

(** ** Instances *)


Lemma back_twice_reaches_home_witness :
  let w : world (O := ()) (M := ()) :=
    World {["page" := "Sierra Leone"]} ∅ None [] in
  returns (back;; back) w (λ _ w', page_of w' = Some "home").
Proof.
  cbv zeta. apply (back_twice_reaches_home "Sierra Leone");
    [in_list|reflexivity].
Defined.

Lemma back_without_parent_raises_witness :
  let w : world (O := ()) (M := ()) :=
    World {["page" := "settings"]} ∅ None [] in
  let ui := Widgets (Some "Go Back") [] "" in
  show_back_button ui w = inl (KeyError "settings")
  ∧ main ui 1%positive w = inl (KeyError "settings").
Proof.
  cbv zeta. apply back_without_parent_raises; try reflexivity. discriminate.
Defined.

Lemma main_unknown_page_witness :
  let w : world (O := ()) (M := ()) :=
    World {["page" := "settings"]} ∅ None [] in
  main (Widgets None [] "") 1%positive w
  = inr ((), World {["page" := "settings"]} ∅ None [SidebarButton "Go Back"]).
Proof.
  intros w.
  assert (Hin : "settings" ∉ pages).
  { unfold pages. intros H. repeat (apply elem_of_cons in H as [[=]|H]).
    inversion H. }
  assert (Hc : clicked (Widgets None [] "") ≠ Some "Go Back") by done.
  exact (main_unknown_page (Widgets None [] "") 1%positive "settings" w
           eq_refl Hin Hc).
Defined.

Lemma click_is_rendered_in_the_next_run_witness :
  let w : world (O := ()) (M := ()) := World {["page" := "home"]} ∅ None [] in
  let ui := Widgets (Some "Individual Analysis") [] "" in
  page_of w = Some "home"
  ∧ clicked ui = Some "Individual Analysis"
  ∧ returns (main ui 1%positive) w (λ _ w1,
      page_of w1 = Some "individual"
      ∧ rendered w1
        = (rendered w
           ++ [Title "Home"; Columns 2; Button "Individual Analysis";
               Button "Cross-country Analysis"])%list
      ∧ ∀ ui', clicked ui' = None →
          returns (main ui' 1%positive) w1 (λ _ w2,
            rendered w2
            = (rendered w1
               ++ [SidebarButton "Go Back"; Title "Individual Analysis";
                   Columns 2; Button "Nepal"; Button "USA"; Button "Estonia";
                   Button "Sierra Leone"])%list
            ∧ ∀ ui'', clicked ui'' = Some "Go Back" →
                returns (main ui'' 1%positive) w2 (λ _ w3,
                  page_of w3 = Some "home"
                  ∧ rendered w3
                    = (rendered w2
                       ++ [SidebarButton "Go Back"; Title "Home"; Columns 2;
                           Button "Individual Analysis";
                           Button "Cross-country Analysis"])%list))).
Proof.
  intros w ui.
  assert (Hp : page_of w = Some "home") by reflexivity.
  split; [exact Hp|]. split; [reflexivity|].
  exact (click_is_rendered_in_the_next_run ui 1%positive w Hp eq_refl).
Defined.

Lemma script_missing_file_witness :
  let w : world (O := ()) (M := ()) := World ∅ ∅ None [] in
  let fs : files (O := ()) (M := ()) := Files None (Some []) in
  script () fs (Widgets None [] "") w
  = inl (FileNotFoundError "UNESCO_edu_data.csv").
Proof.
  cbv zeta.
  apply (proj1 (script_missing_file () (Files None (Some []))
                  (Widgets None [] "") (World ∅ ∅ None []) eq_refl)).
  reflexivity.
Defined.

Lemma load_data_raises_witness :
  let data := [RawRow (Some "NPL") (Some "ner.02.cp") None 2010%Z 1%float ()] in
  let missing := [RawRow (Some "NPL") None None 2010%Z 1%float ()] in
  let metadata := [MetaRow None (Some "Net enrolment rate") ()] in
  let w : world (O := ()) (M := ()) := World ∅ ∅ None [] in
  load_data_body () (Files (Some missing) (Some metadata)) w
  = inl (AttributeError "str")
  ∧ load_data_body () (Files (Some data) (Some metadata)) w = inl ValueError.
Proof.
  intros data missing metadata w. split.
  - apply (proj1 (proj2 (load_data_raises () (Files (Some missing)
                                                  (Some metadata))
                           missing metadata w eq_refl eq_refl)));
      [done|repeat constructor].
  - apply (proj2 (proj2 (load_data_raises () (Files (Some data)
                                                  (Some metadata))
                           data metadata w eq_refl eq_refl)));
      [apply Exists_cons_hd; eauto|done|repeat constructor].
Defined.

Lemma cached_table_hides_the_files_witness :
  let t := [Row (Some "NPL") (Some "NER.02.CP") 2010%Z 1%float ()
                (Some "Net enrolment rate") ()] in
  let w : world (O := ()) (M := ()) := World ∅ ∅ (Some t) [] in
  let ui := Widgets None [] "" in
  script () (Files None None) ui w = script () (Files (Some []) (Some [])) ui w.
Proof.
  intros t w ui.
  exact (proj1 (cached_table_hides_the_files () (Files None None)
                  (Files (Some []) (Some [])) ui t w eq_refl)).
Defined.



(** The page of the indicators on the table of the witness: the duplicate
    row is dropped and the three charts are drawn. *)
Example show_cross_NER :
  let r := Row (Some "NPL") (Some "NER.02.CP") 2010%Z 1%float ()
               (Some "Net enrolment rate") () in
  let t := [r; r; Row None (Some "XGDP.FSGOV") 2010%Z 4%float () None ()] in
  let w : world (O := ()) (M := ()) :=
    World {["page" := "cross"]} {[1%positive := DataFrame t]} None [] in
  returns (show_cross (Widgets None [] "NER.02.CP") 1%positive) w (λ _ w',
    rendered w'
    = [Title "Cross-country Analysis";
       Selectbox "Select an Indicator" indicators.*1;
       Written "Displaying cross-country analysis for: **Net enrolment rate, pre-primary, both sexes (%)**";
       Markdown "<br><br>";
       Tabs ["Line Chart"; "Area Chart"; "Bar Chart"];
       PlotlyChart (Figure LineChart (DataFrame [r]) "country_id");
       PlotlyChart (Figure AreaChart (DataFrame [r]) "country_id");
       PlotlyChart (Figure BarChart (MeanFrame [(2010%Z, "NPL", 1%float)])
                      "country_id")]).
Proof. vm_compute. reflexivity. Qed.

(** X17: going to a page and back is a round trip.  For every button of the
    home and the individual page, the click leads to the page of the button,
    and a click on "Go Back" there leads back to the page that showed the
    button. *)
Theorem goto_then_back_round_trip {O M} `{!EqDecision O, !EqDecision M}
    (label_data : loc) (w : world (O := O) (M := M)) :
  Forall (λ '(page, label, target),
            page_of w = Some page →
            ∀ ui, clicked ui = Some label →
              returns (main ui label_data) w (λ _ w1,
                page_of w1 = Some target
                ∧ ∀ ui', clicked ui' = Some "Go Back" →
                    returns (main ui' label_data) w1 (λ _ w2,
                      page_of w2 = Some page)))
    buttons.
Proof.
  unfold buttons. repeat (apply Forall_cons; split); [..|by apply Forall_nil].
  all: cbv beta iota; intros Hp ui Hc; run_nav Hp Hc; split; [done|].
  all: intros ui' Hc'; run_nav Hp Hc'; done.
Qed.
